(** * canton-wallet-demo: DAR upload, vetting and the package registry

    A shallow embedding of [scripts/upload_dar.py] and [vet_dar.py].

    - Python [str] values are sequences of Unicode code points: [list N].
    - [subprocess.run] of [grpcurl] is an oracle of the environment; every
      call is recorded in a trace together with the messages printed.
    - [sys.exit] and uncaught exceptions are results of a small
      state-and-exit monad.
    - the [versions] dict of [update_package_config] is a [gmap].
    - files are texts by path; the registry is read in text mode and
      written into a file that [open(path, 'w')] has emptied first. *)

From Stdlib Require Import ZArith NArith List Ascii String Lia.
From stdpp Require Import gmap list sorting.

Local Open Scope N_scope.

(** ** Text *)

Abbreviation pystr := (list N).

(** A literal of the source, as code points. *)
Fixpoint text (s : string) : pystr :=
  match s with
  | EmptyString => []
  | String c s' => N_of_ascii c :: text s'
  end.

Definition NL : pystr := [10].
Definition QUOTE : N := 39.
Definition LBRACE : N := 123.
Definition RBRACE : N := 125.
Definition COLON : N := 58.

(** [sep.join(parts)] *)
Fixpoint join (sep : pystr) (parts : list pystr) : pystr :=
  match parts with
  | [] => []
  | [p] => p
  | p :: ps => p ++ sep ++ join sep ps
  end.

(** What reading a file in text mode gives for the text stored in it
    (universal newlines, the default of [open(path, 'r')]): a carriage
    return followed by a line feed, and a carriage return alone, are read
    as one line feed. Writing in text mode on POSIX stores the text as it
    is. *)
Fixpoint universal_newlines (s : pystr) : pystr :=
  match s with
  | [] => []
  | c :: r =>
      if c =? 13 then
        match r with
        | d :: r' => if d =? 10 then 10 :: universal_newlines r'
                     else 10 :: universal_newlines r
        | [] => [10]
        end
      else c :: universal_newlines r
  end.

(** A block of source lines, each ended by a newline. *)
Definition lines (ls : list string) : pystr :=
  concat (map (fun l => text l ++ NL) ls).

(** [str] comparison: lexicographic on code points, a proper prefix is
    smaller. *)
Fixpoint str_ltb (a b : pystr) : bool :=
  match a, b with
  | [], [] => false
  | [], _ :: _ => true
  | _ :: _, [] => false
  | x :: a', y :: b' =>
      if x <? y then true else if y <? x then false else str_ltb a' b'
  end.

Definition str_lt (a b : pystr) : Prop := str_ltb a b = true.

(** Tuple comparison of two [(version, package_id)] items: the first
    component that differs decides. *)
Definition item_ltb (a b : pystr * pystr) : bool :=
  if decide (a.1 = b.1) then str_ltb a.2 b.2 else str_ltb a.1 b.1.

(** The order [sorted(..., reverse=True)] puts two items in: [a] may come
    before [b] unless [a < b]. *)
Definition item_ge (a b : pystr * pystr) : Prop := item_ltb a b = false.

#[global] Instance item_ge_dec a b : Decision (item_ge a b).
Proof. unfold item_ge. apply _. Defined.

(** ** The two regular expressions of [update_package_config]

    Both patterns are deterministic for a backtracking matcher: a greedy
    [\s*] is followed by a character that is not white space, and a greedy
    negated class [[^c]*] by the character [c] itself, so giving back
    characters can never make a failed attempt succeed. *)

(** [\s] on a [str] pattern: Unicode white space. *)
Definition is_space (c : N) : bool :=
  ((9 <=? c) && (c <=? 13)) || ((28 <=? c) && (c <=? 32))
  || (c =? 133) || (c =? 160) || (c =? 5760)
  || ((8192 <=? c) && (c <=? 8202))
  || (c =? 8232) || (c =? 8233) || (c =? 8239) || (c =? 8287)
  || (c =? 12288).

(** A literal at the head of the subject. *)
Fixpoint strip_prefix (p s : pystr) : option pystr :=
  match p with
  | [] => Some s
  | x :: p' =>
      match s with
      | y :: s' => if x =? y then strip_prefix p' s' else None
      | [] => None
      end
  end.

(** [\s*] *)
Fixpoint skip_spaces (s : pystr) : pystr :=
  match s with
  | c :: s' => if is_space c then skip_spaces s' else s
  | [] => []
  end.

(** [[^d]*]: the longest run without [d], and what follows it. *)
Fixpoint span_not (d : N) (s : pystr) : pystr * pystr :=
  match s with
  | c :: s' =>
      if c =? d then ([], s)
      else let '(g, r) := span_not d s' in (c :: g, r)
  | [] => ([], [])
  end.

(** The versions pattern, [versions:] then [\s*] then an opening brace,
    group 1 = [[^}]*], and a closing brace, tried at the head of [s]:
    group 1. *)
Definition match_versions_at (s : pystr) : option pystr :=
  s1 ← strip_prefix (text "versions:") s;
  s2 ← strip_prefix [LBRACE] (skip_spaces s1);
  let '(g, s3) := span_not RBRACE s2 in
  _ ← strip_prefix [RBRACE] s3;
  Some g.

(** [re.search] of the versions pattern in [content] (line 205; the
    pattern has no dot, so [re.DOTALL] changes nothing): the leftmost
    position where the pattern matches. *)
Fixpoint re_search_versions (content : pystr) : option pystr :=
  match match_versions_at content with
  | Some g => Some g
  | None =>
      match content with
      | [] => None
      | _ :: rest => re_search_versions rest
      end
  end.

(** The entry pattern of line 211, a quoted [[^']+], a colon, [\s*] and a
    second quoted [[^']+], tried at the head of [s]: groups 1 and 2 and the
    text after the match. *)
Definition match_entry_at (s : pystr) : option (pystr * pystr * pystr) :=
  s1 ← strip_prefix [QUOTE] s;
  let '(g1, s2) := span_not QUOTE s1 in
  if decide (g1 = []) then None else
  s3 ← strip_prefix [QUOTE; COLON] s2;
  s4 ← strip_prefix [QUOTE] (skip_spaces s3);
  let '(g2, s5) := span_not QUOTE s4 in
  if decide (g2 = []) then None else
  s6 ← strip_prefix [QUOTE] s5;
  Some (g1, g2, s6).

(** [re.finditer]: matches from left to right without overlap. The scan
    resumes after a match, or one character further after a failure; the
    fuel bounds the number of attempts. *)
Fixpoint finditer_fuel (fuel : nat) (s : pystr) : list (pystr * pystr) :=
  match fuel with
  | O => []
  | S fuel' =>
      match match_entry_at s with
      | Some (g1, g2, rest) => (g1, g2) :: finditer_fuel fuel' rest
      | None =>
          match s with
          | [] => []
          | _ :: s' => finditer_fuel fuel' s'
          end
      end
  end.

Definition finditer_entries (s : pystr) : list (pystr * pystr) :=
  finditer_fuel (S (length s)) s.

(** ** The registry file [src/config/packageConfig.js] *)

(** The content a missing registry file starts from. *)
Definition TEMPLATE : pystr :=
  lines [ "// MinimalToken Package Configuration"
        ; "// This file is auto-generated by upload_dar.py"
        ; ""
        ; "export const MINIMAL_TOKEN_PACKAGE_CONFIG = {"
        ; "  // Current active version"
        ; "  currentVersion: null,"
        ; "  currentPackageId: null,"
        ; ""
        ; "  // All deployed versions"
        ; "  versions: {}"
        ; "};"
        ; ""
        ; "export default MINIMAL_TOKEN_PACKAGE_CONFIG;" ]%string.

(** Lines 204-212: the [versions] dict read back from the file. A later
    match for a version overwrites an earlier one. *)
Definition parse_versions (content : pystr) : gmap (list N) (list N) :=
  match re_search_versions content with
  | Some versions_str =>
      foldl (fun versions m => <[m.1 := m.2]> versions) ∅
            (finditer_entries versions_str)
  | None => ∅
  end.

(** Lines 204-215: the dict that is serialized. *)
Definition new_versions (content package_id version : pystr)
  : gmap (list N) (list N) :=
  <[version := package_id]> (parse_versions content).

(** [sorted(versions.items(), reverse=True)]. The items of a dict have
    pairwise distinct keys, so the result is the one descending list of
    the items, whatever the sorting algorithm. *)
Definition sorted_items (versions : gmap (list N) (list N))
  : list (pystr * pystr) :=
  merge_sort item_ge (map_to_list versions).

(** [f"'{v}': '{pid}'"] *)
Definition format_entry (e : pystr * pystr) : pystr :=
  [QUOTE] ++ e.1 ++ text "': '" ++ e.2 ++ [QUOTE].

(** The separator of line 218: a comma, a newline and four spaces. *)
Definition SEP : pystr := text "," ++ NL ++ text "    ".

(** Lines 218-221. *)
Definition versions_block (versions : gmap (list N) (list N)) : pystr :=
  join SEP (map format_entry (sorted_items versions)).

(** Lines 224-239: the f-string [new_content]. *)
Definition render_config (version package_id versions_str : pystr)
  : pystr :=
  lines [ "// MinimalToken Package Configuration"
        ; "// This file is auto-generated by upload_dar.py"
        ; ""
        ; "export const MINIMAL_TOKEN_PACKAGE_CONFIG = {"
        ; "  // Current active version" ]%string
  ++ text "  currentVersion: '" ++ version ++ text "'," ++ NL
  ++ text "  currentPackageId: '" ++ package_id ++ text "'," ++ NL
  ++ lines [ ""
           ; "  // All deployed versions (newest first)"
           ; "  versions: {" ]%string
  ++ text "    " ++ versions_str ++ NL
  ++ lines [ "  }"
           ; "};"
           ; ""
           ; "export default MINIMAL_TOKEN_PACKAGE_CONFIG;" ]%string.

(** The text [update_package_config] writes over [content]. *)
Definition new_content (content package_id version : pystr) : pystr :=
  render_config version package_id
    (versions_block (new_versions content package_id version)).

(** ** Paths *)

(** [os.path.join] on POSIX: an absolute component restarts the path, and
    a separator is added unless the path so far is empty or ends in one. *)
Definition SLASH : N := 47.

Definition join2 (path b : pystr) : pystr :=
  match b with
  | c :: _ => if c =? SLASH then b
              else match last path with
                   | None => path ++ b
                   | Some e => if e =? SLASH then path ++ b
                               else path ++ [SLASH] ++ b
                   end
  | [] => match last path with
          | None => path
          | Some e => if e =? SLASH then path else path ++ [SLASH]
          end
  end.

Definition os_path_join (a : pystr) (ps : list pystr) : pystr :=
  foldl join2 a ps.

(** ** [base64.b64encode] *)

Definition b64_char (i : N) : N :=
  if i <? 26 then 65 + i
  else if i <? 52 then 97 + (i - 26)
  else if i <? 62 then 48 + (i - 52)
  else if i =? 62 then 43 else 47.

Fixpoint b64encode (bytes : list N) : pystr :=
  match bytes with
  | a :: b :: c :: rest =>
      b64_char (N.shiftr a 2)
      :: b64_char (N.lor (N.shiftl (N.land a 3) 4) (N.shiftr b 4))
      :: b64_char (N.lor (N.shiftl (N.land b 15) 2) (N.shiftr c 6))
      :: b64_char (N.land c 63)
      :: b64encode rest
  | [a; b] =>
      [ b64_char (N.shiftr a 2)
      ; b64_char (N.lor (N.shiftl (N.land a 3) 4) (N.shiftr b 4))
      ; b64_char (N.shiftl (N.land b 15) 2)
      ; 61 ]
  | [a] =>
      [ b64_char (N.shiftr a 2); b64_char (N.shiftl (N.land a 3) 4); 61; 61 ]
  | [] => []
  end.

(** ** The environment of a run *)

(** The request payloads handed to [grpcurl -d]. *)
Record UploadRequest := {
  dar_bytes : pystr;          (* dars[0].bytes, base64 *)
  dar_description : pystr;    (* dars[0].description *)
  vet_all_packages : bool;
  synchronize_vetting : bool
}.

Record VetRequest := {
  main_package_id : pystr;
  synchronize : bool
}.

(** The [PackageService] method called, with its payload. *)
Inductive request :=
| UploadDar (r : UploadRequest)
| VetDar (r : VetRequest).

(** What [subprocess.run(..., capture_output=True, text=True)] returns.
    [stdout_darIds] is [json.loads(stdout).get('darIds')]: the
    [UploadDar] response is an object whose only field, a list of
    strings, may be absent; the scripts read nothing else of stdout. *)
Record CompletedProcess := {
  returncode : Z;
  stdout_darIds : option (list pystr);
  stderr : pystr
}.

(** What [yaml.safe_load] of [daml.yaml] gives: an exception, or a
    document whose [version] field (a string) may be absent. *)
Inductive yaml_load :=
| YamlError
| YamlDoc (version : option pystr).

Record Env := {
  argv : list pystr;                      (* sys.argv *)
  PROJECT_ROOT : pystr;
  daml_yaml : option yaml_load;           (* None: no daml.yaml *)
  dar_files : pystr → option (list N);    (* path to bytes *)
  grpcurl : Z → request → CompletedProcess;   (* localhost port, call *)
  registry_read_error : bool;    (* reading config_path raises *)
  registry_write_error : bool;   (* makedirs or open for writing raises *)
  registry_write_cut : option nat
    (* Some n: after open has truncated the file, f.write or the close of
       the with block raises with the first n characters in the file *)
}.

(** The messages printed at the decision points of the scripts. *)
Inductive message :=
| MsgUsage
| MsgYamlNotFound
| MsgNoVersionField
| MsgYamlReadFailed
| MsgVersion (version : pystr)
| MsgDarNotFound (dar_path : pystr)
| MsgEncoded (len : nat)
| MsgUploadFailed (participant_name err : pystr)
| MsgUploadOk (participant_name : pystr)
| MsgNoPackageId
| MsgPackageId (package_id : pystr)
| MsgVetWarning (participant_name err : pystr)
| MsgVetOk (participant_name : pystr)
| MsgVetComplete
| MsgVetAllOk
| MsgVetWithWarnings
| MsgConfigUpdated (version package_id : pystr)
| MsgUploadComplete.

Inductive event :=
| Called (port : Z) (req : request)
| Printed (m : message).

(** The mutable world: text files by path, and what the run did so far. *)
Record State := {
  files : gmap (list N) (list N);
  trace : list event
}.

(** ** Results

    The scripts define no exception classes. A run is cut short by
    [sys.exit(1)] after a message, or by an [OSError] nobody catches; the
    kind names the error of the design each such site stands for. *)
Inductive abort :=
| UsageError
| ConfigError
| ArtifactNotFoundError
| DistributionError
| RegistryWriteError
| VettingIncomplete.     (* vet_dar.py only: its exit after a warning *)

Inductive Result (A : Type) :=
| Ret (a : A)
| SysExit (code : Z) (kind : abort)     (* sys.exit(code) *)
| Uncaught (kind : abort).              (* traceback at top level *)
Arguments Ret {A} a.
Arguments SysExit {A} code kind.
Arguments Uncaught {A} kind.

(** The status the interpreter exits with. *)
Definition exit_status {A} (r : Result A) : Z :=
  match r with
  | Ret _ => 0
  | SysExit code _ => code
  | Uncaught _ => 1
  end%Z.

Definition Run (A : Type) : Type := State → Result A * State.

#[global] Instance run_ret : MRet Run := λ A a σ, (Ret a, σ).
#[global] Instance run_bind : MBind Run := λ A B f m σ,
  match m σ with
  | (Ret a, σ') => f a σ'
  | (SysExit code kind, σ') => (SysExit code kind, σ')
  | (Uncaught kind, σ') => (Uncaught kind, σ')
  end.

Definition emit (e : event) : Run unit :=
  λ σ, (Ret tt, {| files := files σ; trace := trace σ ++ [e] |}).
Definition print (m : message) : Run unit := emit (Printed m).
Definition sys_exit {A} (code : Z) (kind : abort) : Run A :=
  λ σ, (SysExit code kind, σ).
Definition raise {A} (kind : abort) : Run A :=
  λ σ, (Uncaught kind, σ).

(** [subprocess.run(['grpcurl', ..., 'localhost:<port>', <method>])] *)
Definition subprocess_run (env : Env) (port : Z) (req : request)
  : Run CompletedProcess :=
  emit (Called port req);; mret (grpcurl env port req).

(** [os.path.exists(path)] and then [open(path, 'r')] with [f.read()]:
    the text of the file as text mode gives it, or nothing when the file
    does not exist. *)
Definition read_file (path : pystr) : Run (option pystr) :=
  λ σ, (Ret (universal_newlines <$> files σ !! path), σ).

(** The file at [path] holds [content]. *)
Definition store (path content : pystr) (σ : State) : State :=
  {| files := <[path := content]> (files σ); trace := trace σ |}.

(** Lines 242-244: [os.makedirs], [open(path, 'w')] and [f.write]. An
    error of the first two leaves everything as it was. [open] truncates
    the file, so an error after it leaves in the file what had been
    written: the first [n] characters, none when [n = 0]. *)
Definition write_file (env : Env) (path content : pystr) : Run unit :=
  if registry_write_error env then raise RegistryWriteError
  else match registry_write_cut env with
       | Some n => λ σ, (Uncaught RegistryWriteError,
                         store path (take n content) σ)
       | None => λ σ, (Ret tt, store path content σ)
       end.

(** ** [scripts/upload_dar.py] *)

Definition DAML_PROJECT_PATH (env : Env) : pystr :=
  os_path_join (PROJECT_ROOT env) [text "daml"; text "minimal-token"].

Definition read_version_from_daml_yaml (env : Env) : Run pystr :=
  match daml_yaml env with
  | None => print MsgYamlNotFound;; sys_exit 1 ConfigError
  | Some YamlError => print MsgYamlReadFailed;; sys_exit 1 ConfigError
  | Some (YamlDoc None) | Some (YamlDoc (Some [])) =>
      print MsgNoVersionField;; sys_exit 1 ConfigError
  | Some (YamlDoc (Some version)) => mret version
  end.

Definition get_dar_path (env : Env) (version : pystr) : pystr :=
  let dar_dist_path :=
    os_path_join (DAML_PROJECT_PATH env) [text ".daml"; text "dist"] in
  let dar_file := text "minimal-token-" ++ version ++ text ".dar" in
  os_path_join dar_dist_path [dar_file].

Definition PROVIDER_PORT : Z := 3902.
Definition USER_PORT : Z := 2902.
Definition APP_PROVIDER : pystr := text "app-provider".
Definition APP_USER : pystr := text "app-user".

(** The [vet_request] dict of both scripts. *)
Definition make_vet_request (package_id : pystr) : request :=
  VetDar {| main_package_id := package_id; synchronize := true |}.

(** The [upload_request] dict of [upload_dar]. *)
Definition make_upload_request (dar_b64 version : pystr) : request :=
  UploadDar
    {| dar_bytes := dar_b64;
       dar_description :=
         text "MinimalToken v" ++ version
         ++ text " - ProposeBurn/AcceptBurn pattern";
       vet_all_packages := true;
       synchronize_vetting := true |}.

Definition vet_dar (env : Env) (package_id : pystr) : Run unit :=
  let vet_request := make_vet_request package_id in
  result_provider ← subprocess_run env PROVIDER_PORT vet_request;
  (if decide (returncode result_provider ≠ 0%Z)
   then print (MsgVetWarning APP_PROVIDER (stderr result_provider))
   else print (MsgVetOk APP_PROVIDER));;
  result_user ← subprocess_run env USER_PORT vet_request;
  (if decide (returncode result_user ≠ 0%Z)
   then print (MsgVetWarning APP_USER (stderr result_user))
   else print (MsgVetOk APP_USER));;
  print MsgVetComplete.

Definition upload_dar (env : Env) (dar_path version : pystr) : Run pystr :=
  match dar_files env dar_path with
  | None => print (MsgDarNotFound dar_path);;
            sys_exit 1 ArtifactNotFoundError
  | Some bytes =>
      let dar_b64 := b64encode bytes in
      print (MsgEncoded (length bytes));;
      let upload_request := make_upload_request dar_b64 version in
      result_provider ← subprocess_run env PROVIDER_PORT upload_request;
      if decide (returncode result_provider ≠ 0%Z) then
        print (MsgUploadFailed APP_PROVIDER (stderr result_provider));;
        sys_exit 1 DistributionError
      else
        print (MsgUploadOk APP_PROVIDER);;
        let package_id :=
          match stdout_darIds result_provider with
          | Some (first :: _) => Some first
          | Some [] | None => None
          end in
        match package_id with
        | None | Some [] => print MsgNoPackageId;;
                            sys_exit 1 DistributionError
        | Some package_id =>
            print (MsgPackageId package_id);;
            result_user ← subprocess_run env USER_PORT upload_request;
            if decide (returncode result_user ≠ 0%Z) then
              print (MsgUploadFailed APP_USER (stderr result_user));;
              sys_exit 1 DistributionError
            else
              print (MsgUploadOk APP_USER);;
              vet_dar env package_id;;
              mret package_id
        end
  end.

Definition config_path (env : Env) : pystr :=
  os_path_join (PROJECT_ROOT env)
    [text "src"; text "config"; text "packageConfig.js"].

Definition update_package_config (env : Env) (package_id version : pystr)
  : Run unit :=
  existing ← read_file (config_path env);
  content ← match existing with
            | Some c => if registry_read_error env
                        then raise RegistryWriteError else mret c
            | None => mret TEMPLATE
            end;
  write_file env (config_path env)
    (new_content content package_id version);;
  print (MsgConfigUpdated version package_id).

Definition main (env : Env) : Run unit :=
  if decide (2 < length (argv env))%nat then
    print MsgUsage;; sys_exit 1 UsageError
  else
    version ← match argv env with
              | [_; version] => mret version
              | _ => version ← read_version_from_daml_yaml env;
                     print (MsgVersion version);; mret version
              end;
    let dar_path := get_dar_path env version in
    package_id ← upload_dar env dar_path version;
    update_package_config env package_id version;;
    print MsgUploadComplete.

(** ** [vet_dar.py], the stand-alone vetting tool *)

Module VetDarTool.

Definition vet_dar_on_participant (env : Env) (package_id : pystr)
    (port : Z) (participant_name : pystr) : Run bool :=
  let vet_request := make_vet_request package_id in
  result ← subprocess_run env port vet_request;
  if decide (returncode result ≠ 0%Z) then
    print (MsgVetWarning participant_name (stderr result));; mret false
  else
    print (MsgVetOk participant_name);; mret true.

Definition main (env : Env) : Run unit :=
  match argv env with
  | [_; package_id] =>
      success_provider ←
        vet_dar_on_participant env package_id 3902 (text "app-provider");
      success_user ←
        vet_dar_on_participant env package_id 2902 (text "app-user");
      if success_provider && success_user then print MsgVetAllOk
      else print MsgVetWithWarnings;; sys_exit 1 VettingIncomplete
  | _ => print MsgUsage;; sys_exit 1 UsageError
  end.

End VetDarTool.

(** ** Observing a run *)

(** The calls made, in order. *)
Definition calls_of (evs : list event) : list (Z * request) :=
  omap (λ e, match e with
             | Called port req => Some (port, req)
             | Printed _ => None
             end) evs.

(** The state after the events [evs] were added to the trace. *)
Definition log (σ : State) (evs : list event) : State :=
  {| files := files σ; trace := trace σ ++ evs |}.

(** The version a run works on, when the version stage succeeds: the one
    argument, or else the non-empty [version] field of [daml.yaml]. *)
Definition resolved_version (env : Env) : option pystr :=
  match argv env with
  | [_; version] => Some version
  | [] | [_] =>
      match daml_yaml env with
      | Some (YamlDoc (Some (c :: version))) => Some (c :: version)
      | _ => None
      end
  | _ => None
  end.

(** What the version stage prints when it succeeds. *)
Definition version_events (env : Env) (version : pystr) : list event :=
  match argv env with
  | [_; _] => []
  | _ => [Printed (MsgVersion version)]
  end.

(** The upload request of a run for [version] over the bytes of its
    artifact. *)
Definition upload_request_of (bytes : list N) (version : pystr) : request :=
  make_upload_request (b64encode bytes) version.

(** The canonical identifier [upload_dar] extracts from the authoritative
    response (lines 103-112): the first identifier, unless it is missing
    or empty. *)
Definition package_id_of (r : CompletedProcess) : option pystr :=
  match stdout_darIds r with
  | Some ((c :: first) :: _) => Some (c :: first)
  | _ => None
  end.

(** The events of [vet_dar] for one participant. *)
Definition vet_events (env : Env) (package_id : pystr) (port : Z)
    (participant_name : pystr) : list event :=
  let r := grpcurl env port (make_vet_request package_id) in
  [ Called port (make_vet_request package_id)
  ; Printed (if decide (returncode r ≠ 0%Z)
             then MsgVetWarning participant_name (stderr r)
             else MsgVetOk participant_name) ].

(** The registry text [update_package_config] starts from. *)
Definition registry_content (env : Env) (σ : State) : pystr :=
  default TEMPLATE (universal_newlines <$> files σ !! config_path env).

(** Reading (when the file exists) and writing the registry both work. *)
Definition registry_io_ok (env : Env) (σ : State) : bool :=
  negb (registry_write_error env)
  && bool_decide (registry_write_cut env = None)
  && (negb (registry_read_error env)
      || bool_decide (files σ !! config_path env = None)).

(** The state a failed registry update leaves: as it was when the file
    could not be read or opened for writing, and with the registry cut to
    the first [n] characters of the new text when the write failed after
    the file was opened. *)
Definition registry_failed (env : Env) (σ : State)
    (package_id version : pystr) : State :=
  if registry_read_error env
     && bool_decide (files σ !! config_path env ≠ None) then σ
  else if registry_write_error env then σ
  else match registry_write_cut env with
       | Some n =>
           store (config_path env)
             (take n (new_content (registry_content env σ)
                        package_id version)) σ
       | None => σ
       end.

(** The state after a registry update for [(version, package_id)]. *)
Definition registry_updated (env : Env) (σ : State)
    (package_id version : pystr) : State :=
  {| files := <[config_path env :=
                  new_content (registry_content env σ) package_id version]>
              (files σ);
     trace := trace σ ++ [Printed (MsgConfigUpdated version package_id)] |}.

(** The kind of the error that cut a run short. *)
Definition abort_of {A} (r : Result A) : option abort :=
  match r with
  | Ret _ => None
  | SysExit _ kind | Uncaught kind => Some kind
  end.

(** Two environments that differ at most in what the participants answer
    to [VetDar] calls. *)
Definition same_but_vetting (env env' : Env) : Prop :=
  argv env = argv env' ∧ PROJECT_ROOT env = PROJECT_ROOT env'
  ∧ daml_yaml env = daml_yaml env' ∧ dar_files env = dar_files env'
  ∧ registry_read_error env = registry_read_error env'
  ∧ registry_write_error env = registry_write_error env'
  ∧ registry_write_cut env = registry_write_cut env'
  ∧ ∀ port r, grpcurl env port (UploadDar r) = grpcurl env' port (UploadDar r).

(** The events of [upload_dar] up to the authoritative response. *)
Definition provider_events (env : Env) (bytes : list N) (version : pystr)
  : list event :=
  [ Printed (MsgEncoded (length bytes))
  ; Called PROVIDER_PORT (upload_request_of bytes version) ].

(** The events of an [upload_dar] that returns [package_id]. *)
Definition upload_events (env : Env) (bytes : list N)
    (version package_id : pystr) : list event :=
  provider_events env bytes version
  ++ [ Printed (MsgUploadOk APP_PROVIDER); Printed (MsgPackageId package_id)
     ; Called USER_PORT (upload_request_of bytes version)
     ; Printed (MsgUploadOk APP_USER) ]
  ++ vet_events env package_id PROVIDER_PORT APP_PROVIDER
  ++ vet_events env package_id USER_PORT APP_USER
  ++ [Printed MsgVetComplete].

(** The paths through [main] of [upload_dar.py]: each one with the
    conditions on the environment that select it and the result and final
    state it ends in. *)
Inductive main_path (env : Env) (σ : State) : Result () * State → Prop :=
| path_usage :
    (2 < length (argv env))%nat →
    main_path env σ (SysExit 1 UsageError, log σ [Printed MsgUsage])
| path_config m :
    (length (argv env) ≤ 2)%nat → resolved_version env = None →
    main_path env σ (SysExit 1 ConfigError, log σ [Printed m])
| path_artifact version :
    resolved_version env = Some version →
    dar_files env (get_dar_path env version) = None →
    main_path env σ
      (SysExit 1 ArtifactNotFoundError,
       log σ (version_events env version
              ++ [Printed (MsgDarNotFound (get_dar_path env version))]))
| path_provider version bytes :
    resolved_version env = Some version →
    dar_files env (get_dar_path env version) = Some bytes →
    let r1 := grpcurl env PROVIDER_PORT (upload_request_of bytes version) in
    returncode r1 ≠ 0%Z →
    main_path env σ
      (SysExit 1 DistributionError,
       log σ (version_events env version
              ++ provider_events env bytes version
              ++ [Printed (MsgUploadFailed APP_PROVIDER (stderr r1))]))
| path_no_id version bytes :
    resolved_version env = Some version →
    dar_files env (get_dar_path env version) = Some bytes →
    let r1 := grpcurl env PROVIDER_PORT (upload_request_of bytes version) in
    returncode r1 = 0%Z → package_id_of r1 = None →
    main_path env σ
      (SysExit 1 DistributionError,
       log σ (version_events env version
              ++ provider_events env bytes version
              ++ [Printed (MsgUploadOk APP_PROVIDER); Printed MsgNoPackageId]))
| path_user version bytes package_id :
    resolved_version env = Some version →
    dar_files env (get_dar_path env version) = Some bytes →
    let r1 := grpcurl env PROVIDER_PORT (upload_request_of bytes version) in
    let r2 := grpcurl env USER_PORT (upload_request_of bytes version) in
    returncode r1 = 0%Z → package_id_of r1 = Some package_id →
    returncode r2 ≠ 0%Z →
    main_path env σ
      (SysExit 1 DistributionError,
       log σ (version_events env version
              ++ provider_events env bytes version
              ++ [ Printed (MsgUploadOk APP_PROVIDER)
                 ; Printed (MsgPackageId package_id)
                 ; Called USER_PORT (upload_request_of bytes version)
                 ; Printed (MsgUploadFailed APP_USER (stderr r2)) ]))
| path_registry version bytes package_id :
    resolved_version env = Some version →
    dar_files env (get_dar_path env version) = Some bytes →
    let r1 := grpcurl env PROVIDER_PORT (upload_request_of bytes version) in
    let r2 := grpcurl env USER_PORT (upload_request_of bytes version) in
    returncode r1 = 0%Z → package_id_of r1 = Some package_id →
    returncode r2 = 0%Z →
    registry_io_ok env σ = false →
    main_path env σ
      (Uncaught RegistryWriteError,
       registry_failed env
         (log σ (version_events env version
                 ++ upload_events env bytes version package_id))
         package_id version)
| path_done version bytes package_id :
    resolved_version env = Some version →
    dar_files env (get_dar_path env version) = Some bytes →
    let r1 := grpcurl env PROVIDER_PORT (upload_request_of bytes version) in
    let r2 := grpcurl env USER_PORT (upload_request_of bytes version) in
    returncode r1 = 0%Z → package_id_of r1 = Some package_id →
    returncode r2 = 0%Z →
    registry_io_ok env σ = true →
    main_path env σ
      (Ret (),
       log (registry_updated env
              (log σ (version_events env version
                      ++ upload_events env bytes version package_id))
              package_id version)
           [Printed MsgUploadComplete]).

(** ** Sample environments *)

(** Participants that answer with the given status to each of the four
    calls, and with [ids] as the [darIds] of an upload. *)
Definition demo_answer (provider_upload user_upload provider_vet user_vet : Z)
    (ids : option (list pystr)) (port : Z) (req : request)
  : CompletedProcess :=
  {| returncode :=
       match req with
       | UploadDar _ =>
           if decide (port = PROVIDER_PORT) then provider_upload
           else user_upload
       | VetDar _ =>
           if decide (port = PROVIDER_PORT) then provider_vet else user_vet
       end;
     stdout_darIds := match req with UploadDar _ => ids | VetDar _ => None end;
     stderr := text "rpc error" |}.

(** [python3 scripts/upload_dar.py 1.0.0] in a checkout at [/repo] where
    the DAR of version 1.0.0 has been built. *)
Definition demo_env (answer : Z → request → CompletedProcess) : Env :=
  {| argv := [text "scripts/upload_dar.py"; text "1.0.0"];
     PROJECT_ROOT := text "/repo";
     daml_yaml := None;
     dar_files := λ path,
       if decide (path = text "/repo/daml/minimal-token/.daml/dist/minimal-token-1.0.0.dar")
       then Some [80; 75; 3; 4] else None;
     grpcurl := answer;
     registry_read_error := false;
     registry_write_error := false;
     registry_write_cut := None |}.

Definition empty_state : State := {| files := ∅; trace := [] |}.

(** Every call succeeds and the provider answers [darIds = ["abc123"]]. *)
Definition env_all_ok : Env :=
  demo_env (demo_answer 0 0 0 0 (Some [text "abc123"])).
(** Both uploads succeed and both participants fail to vet. *)
Definition env_vet_fails : Env :=
  demo_env (demo_answer 0 0 1 1 (Some [text "abc123"])).
(** The upload to the user participant fails. *)
Definition env_user_upload_fails : Env :=
  demo_env (demo_answer 0 1 0 0 (Some [text "abc123"])).
(** The upload to the provider participant fails. *)
Definition env_provider_upload_fails : Env :=
  demo_env (demo_answer 1 0 0 0 None).
(** The authoritative upload exits with status zero and answers the empty
    object. *)
Definition env_no_identifier : Env :=
  demo_env (demo_answer 0 0 0 0 None).

(** [python3 vet_dar.py abc123] where the user participant answers the
    vet call with status [user_vet]. *)
Definition vet_tool_env (user_vet : Z) : Env :=
  {| argv := [text "vet_dar.py"; text "abc123"];
     PROJECT_ROOT := text "/repo";
     daml_yaml := None;
     dar_files := λ _, None;
     grpcurl := demo_answer 0 0 0 user_vet None;
     registry_read_error := false;
     registry_write_error := false;
     registry_write_cut := None |}.

(** The fatal errors the design names for the upload tool. *)
Definition design_fatal : list abort :=
  [ UsageError; ConfigError; ArtifactNotFoundError; DistributionError
  ; RegistryWriteError ].

(** The identifiers line 114 printed: the values [package_id] was bound
    to and found non-empty. *)
Definition ids_printed (evs : list event) : list pystr :=
  omap (λ e, match e with
             | Printed (MsgPackageId package_id) => Some package_id
             | _ => None
             end) evs.

(** A state whose registry file was edited by hand: the block of entries
    is not called [versions]. *)
Definition edited_state : State :=
  {| files := {[ config_path env_all_ok :=
                   text "export const CONFIG = { deployed: { '0.9.0': 'old999' } };" ]};
     trace := [] |}.

(** ** Well-formed versions and identifiers

    What the round trip of the registry file asks of the strings it
    writes between quotes. *)

(** An entry string the entry pattern reads back. *)
Definition plain (s : pystr) : Prop :=
  s ≠ [] ∧ (QUOTE ∉ s) ∧ (RBRACE ∉ s).

(** A current version or identifier: it is also written above the
    versions block, where an opening brace could start a match. *)
Definition word (s : pystr) : Prop := plain s ∧ LBRACE ∉ s.

Definition plain_entry (e : pystr * pystr) : Prop := plain e.1 ∧ plain e.2.

#[global] Instance plain_dec s : Decision (plain s).
Proof. unfold plain. apply _. Defined.
#[global] Instance word_dec s : Decision (word s).
Proof. unfold word. apply _. Defined.

(** Versions from newest to oldest: each one is greater, as a string,
    than every one after it. *)
Definition version_descending (a b : pystr * pystr) : Prop :=
  str_lt b.1 a.1.

(** The fixed pieces of [render_config] around its three holes. *)
Definition HEAD1 : pystr :=
  lines [ "// MinimalToken Package Configuration"
        ; "// This file is auto-generated by upload_dar.py"
        ; ""
        ; "export const MINIMAL_TOKEN_PACKAGE_CONFIG = {"
        ; "  // Current active version" ]%string
  ++ text "  currentVersion: '".
Definition HEAD2 : pystr := text "'," ++ NL ++ text "  currentPackageId: '".
Definition HEAD3 : pystr :=
  text "'," ++ NL
  ++ lines [ ""; "  // All deployed versions (newest first)" ]%string
  ++ text "  ".
Definition OPEN : pystr := text "versions: {" ++ NL ++ text "    ".
Definition TAIL : pystr :=
  NL ++ lines [ "  }"; "};"; ""
              ; "export default MINIMAL_TOKEN_PACKAGE_CONFIG;" ]%string.

(** The literal [p] differs from [x] at a position both have. *)
Fixpoint mismatch (p x : pystr) : bool :=
  match p, x with
  | a :: p', b :: x' => if a =? b then mismatch p' x' else true
  | _, _ => false
  end.

(** At no position of [lit] can the versions pattern start, whatever
    follows [lit]. *)
Fixpoint no_match_start (lit : pystr) : bool :=
  match lit with
  | [] => true
  | _ :: lit' => mismatch (text "versions:") lit && no_match_start lit'
  end.

(** ** The registry file as its readers see it

    The text of [src/config/packageConfig.js] for a current version, a
    current identifier and a list of entries, written out line by line.
    The theorems state what the scripts write against this text; no
    function of the model uses it. *)

Definition CR : N := 13.

Definition quoted (s : pystr) : pystr := [QUOTE] ++ s ++ [QUOTE].

(** The lines between the braces of [versions], top to bottom: one
    ['version': 'id'] per line, with a comma after each but the last. With
    no entry there is one line of four spaces. *)
Fixpoint entry_lines (entries : list (pystr * pystr)) : list pystr :=
  match entries with
  | [] => [text "    "]
  | [e] => [text "    " ++ quoted e.1 ++ text ": " ++ quoted e.2]
  | e :: es =>
      (text "    " ++ quoted e.1 ++ text ": " ++ quoted e.2 ++ text ",")
      :: entry_lines es
  end.

Definition unlines (ls : list pystr) : pystr :=
  concat (map (λ l, l ++ NL) ls).

Definition registry_file (version package_id : pystr)
    (entries : list (pystr * pystr)) : pystr :=
  unlines
    ([ text "// MinimalToken Package Configuration"
     ; text "// This file is auto-generated by upload_dar.py"
     ; []
     ; text "export const MINIMAL_TOKEN_PACKAGE_CONFIG = {"
     ; text "  // Current active version"
     ; text "  currentVersion: " ++ quoted version ++ text ","
     ; text "  currentPackageId: " ++ quoted package_id ++ text ","
     ; []
     ; text "  // All deployed versions (newest first)"
     ; text "  versions: {" ]
     ++ entry_lines entries
     ++ [ text "  }"
        ; text "};"
        ; []
        ; text "export default MINIMAL_TOKEN_PACKAGE_CONFIG;" ]).

(** A version or identifier that a run writes and a later run reads back
    as it was: a word without a carriage return. *)
Definition clean (s : pystr) : Prop := word s ∧ CR ∉ s.

#[global] Instance clean_dec s : Decision (clean s).
Proof. unfold clean. apply _. Defined.

(** The run of [env_all_ok] where [f.write] fails after [n] characters. *)
Definition env_write_cut (n : nat) : Env :=
  {| argv := argv env_all_ok;
     PROJECT_ROOT := PROJECT_ROOT env_all_ok;
     daml_yaml := daml_yaml env_all_ok;
     dar_files := dar_files env_all_ok;
     grpcurl := grpcurl env_all_ok;
     registry_read_error := false;
     registry_write_error := false;
     registry_write_cut := Some n |}.


(** A state whose registry file lists 2.0.0 and 1.0.0, 2.0.0 being the
    current version. *)
Definition registered_state : State :=
  {| files := {[ config_path env_all_ok :=
                   registry_file (text "2.0.0") (text "new222")
                     [ (text "2.0.0", text "new222")
                     ; (text "1.0.0", text "old111") ] ]};
     trace := [] |}.

(** ** More of the scripts' data, for the further properties *)

(** The directory [get_dar_path] looks in: [dar_dist_path] of line 57. *)
Definition dar_dist_path (env : Env) : pystr :=
  os_path_join (DAML_PROJECT_PATH env) [text ".daml"; text "dist"].

(** The separator [os.path.join] puts after [path]. *)
Definition sep_after (path : pystr) : pystr :=
  match last path with
  | None => []
  | Some e => if e =? SLASH then [] else [SLASH]
  end.

(** The environment with another [daml.yaml]. *)
Definition with_daml_yaml (env : Env) (yaml : option yaml_load) : Env :=
  {| argv := argv env; PROJECT_ROOT := PROJECT_ROOT env;
     daml_yaml := yaml; dar_files := dar_files env;
     grpcurl := grpcurl env;
     registry_read_error := registry_read_error env;
     registry_write_error := registry_write_error env;
     registry_write_cut := registry_write_cut env |}.

(** The environment with other participants. *)
Definition with_grpcurl (env : Env)
    (answer : Z → request → CompletedProcess) : Env :=
  {| argv := argv env; PROJECT_ROOT := PROJECT_ROOT env;
     daml_yaml := daml_yaml env; dar_files := dar_files env;
     grpcurl := answer;
     registry_read_error := registry_read_error env;
     registry_write_error := registry_write_error env;
     registry_write_cut := registry_write_cut env |}.

(** The four calls of a complete run, in the order the script makes
    them. *)
Definition all_calls (bytes : list N) (version package_id : pystr)
  : list (Z * request) :=
  [ (PROVIDER_PORT, upload_request_of bytes version)
  ; (USER_PORT, upload_request_of bytes version)
  ; (PROVIDER_PORT, make_vet_request package_id)
  ; (USER_PORT, make_vet_request package_id) ].

(** The value the loop of lines 211-212 leaves for [k]: that of the last
    match whose first group is [k]. *)
Fixpoint last_value (k : pystr) (l : list (pystr * pystr)) : option pystr :=
  match l with
  | [] => None
  | e :: l' =>
      match last_value k l' with
      | Some v => Some v
      | None => if decide (e.1 = k) then Some e.2 else None
      end
  end.

(** The characters of the standard base64 alphabet, and the padding. *)
Definition is_b64_char (c : N) : bool :=
  ((65 <=? c) && (c <=? 90)) || ((97 <=? c) && (c <=? 122))
  || ((48 <=? c) && (c <=? 57)) || (c =? 43) || (c =? 47) || (c =? 61).

(** Byte values. *)
Definition is_byte (b : N) : bool := b <? 256.

(** A registry file with two entries for the same version, as a hand edit
    can leave it. *)
Definition duplicated_registry : pystr :=
  text "versions: { '1.0.0': 'first', '1.0.0': 'second' }".

(** The 256 byte values, and the check that every character [b64encode]
    can make of two neighbouring bytes is in the alphabet. *)
Definition byte_range : list N := map N.of_nat (seq 0 256).

Definition b64_pair_ok (a b : N) : bool :=
  is_b64_char (b64_char (N.shiftr a 2))
  && is_b64_char (b64_char (N.lor (N.shiftl (N.land a 3) 4) (N.shiftr b 4)))
  && is_b64_char (b64_char (N.lor (N.shiftl (N.land a 15) 2) (N.shiftr b 6)))
  && is_b64_char (b64_char (N.land a 63))
  && is_b64_char (b64_char (N.shiftl (N.land a 15) 2))
  && is_b64_char (b64_char (N.shiftl (N.land a 3) 4)).

(** * Properties *)

(** ** The definitions on small inputs *)

Example b64_Man : b64encode (text "Man") = text "TWFu".
Proof. reflexivity. Qed.
Example b64_Ma : b64encode (text "Ma") = text "TWE=".
Proof. reflexivity. Qed.
Example b64_M : b64encode (text "M") = text "TQ==".
Proof. reflexivity. Qed.

Example dar_path_example :
  get_dar_path env_all_ok (text "1.0.0")
  = text "/repo/daml/minimal-token/.daml/dist/minimal-token-1.0.0.dar".
Proof. vm_compute. reflexivity. Qed.

Example config_path_example :
  config_path env_all_ok = text "/repo/src/config/packageConfig.js".
Proof. vm_compute. reflexivity. Qed.

(** The template holds no entry. *)
Example parse_template : parse_versions TEMPLATE = ∅.
Proof. vm_compute. reflexivity. Qed.

(** A first run for 1.0.0 on a missing registry file: the file written. *)
Example first_run_content :
  new_content TEMPLATE (text "abc123") (text "1.0.0")
  = lines [ "// MinimalToken Package Configuration"
          ; "// This file is auto-generated by upload_dar.py"
          ; ""
          ; "export const MINIMAL_TOKEN_PACKAGE_CONFIG = {"
          ; "  // Current active version"
          ; "  currentVersion: '1.0.0',"
          ; "  currentPackageId: 'abc123',"
          ; ""
          ; "  // All deployed versions (newest first)"
          ; "  versions: {"
          ; "    '1.0.0': 'abc123'"
          ; "  }"
          ; "};"
          ; ""
          ; "export default MINIMAL_TOKEN_PACKAGE_CONFIG;" ]%string.
Proof. vm_compute. reflexivity. Qed.

(** A later run for the older version 0.9.0: the entries stay in
    descending order and 0.9.0 becomes the current version. *)
Example older_version_run :
  new_content (new_content TEMPLATE (text "abc123") (text "1.0.0"))
    (text "old999") (text "0.9.0")
  = lines [ "// MinimalToken Package Configuration"
          ; "// This file is auto-generated by upload_dar.py"
          ; ""
          ; "export const MINIMAL_TOKEN_PACKAGE_CONFIG = {"
          ; "  // Current active version"
          ; "  currentVersion: '0.9.0',"
          ; "  currentPackageId: 'old999',"
          ; ""
          ; "  // All deployed versions (newest first)"
          ; "  versions: {"
          ; "    '1.0.0': 'abc123',"
          ; "    '0.9.0': 'old999'"
          ; "  }"
          ; "};"
          ; ""
          ; "export default MINIMAL_TOKEN_PACKAGE_CONFIG;" ]%string.
Proof. vm_compute. reflexivity. Qed.

(** String order is not version order: 10.0.0 sorts below 9.0.0. *)
Example sorted_as_strings :
  sorted_items (<[text "10.0.0" := text "b"]> {[ text "9.0.0" := text "a" ]})
  = [(text "9.0.0", text "a"); (text "10.0.0", text "b")].
Proof. vm_compute. reflexivity. Qed.

(** A registry edited by hand so that the versions pattern finds no
    block: the old entry is gone from what the update writes. *)
Example hand_edited_entries_dropped :
  re_search_versions (registry_content env_all_ok edited_state) = None
  ∧ sorted_items (new_versions (registry_content env_all_ok edited_state)
                    (text "abc123") (text "1.0.0"))
    = [(text "1.0.0", text "abc123")].
Proof. split; vm_compute; reflexivity. Qed.

(** A versions block whose entry is written with double quotes (code
    point 34): the block is found and the entry is not. *)
Example double_quoted_entry_dropped :
  parse_versions (text "  versions: { " ++ [34] ++ text "0.9.0" ++ [34]
                  ++ text ": " ++ [34] ++ text "old999" ++ [34] ++ text " }")
  = ∅.
Proof. vm_compute. reflexivity. Qed.

(** The whole run of the design's first example. *)
Example run_all_ok :
  (main env_all_ok empty_state).1 = Ret ()
  ∧ calls_of (trace (main env_all_ok empty_state).2)
    = [ (PROVIDER_PORT, upload_request_of [80; 75; 3; 4] (text "1.0.0"))
      ; (USER_PORT, upload_request_of [80; 75; 3; 4] (text "1.0.0"))
      ; (PROVIDER_PORT, make_vet_request (text "abc123"))
      ; (USER_PORT, make_vet_request (text "abc123")) ]
  ∧ files (main env_all_ok empty_state).2 !! config_path env_all_ok
    = Some (new_content TEMPLATE (text "abc123") (text "1.0.0")).
Proof. repeat split; vm_compute; reflexivity. Qed.

(** ** The order on strings and on items *)

Section Order.

Lemma str_ltb_irrefl a : str_ltb a a = false.
Proof.
  induction a as [|x a IH]; simpl; [done|].
  by rewrite N.ltb_irrefl.
Qed.

Lemma str_ltb_asym a b : str_ltb a b = true → str_ltb b a = false.
Proof.
  revert b; induction a as [|x a IH]; intros [|y b]; simpl; try done.
  destruct (N.ltb_spec x y), (N.ltb_spec y x); try done; try lia.
  apply IH.
Qed.

Lemma str_ltb_total a b : a ≠ b → str_ltb a b = true ∨ str_ltb b a = true.
Proof.
  revert b; induction a as [|x a IH]; intros [|y b] Hne; simpl; auto.
  destruct (N.ltb_spec x y), (N.ltb_spec y x); auto; try lia.
  assert (x = y) as -> by lia.
  apply IH. congruence.
Qed.

Lemma str_ltb_trans a b c :
  str_ltb a b = true → str_ltb b c = true → str_ltb a c = true.
Proof.
  revert b c; induction a as [|x a IH]; intros [|y b] [|z c]; simpl;
    try done.
  destruct (N.ltb_spec x y), (N.ltb_spec y z), (N.ltb_spec y x),
    (N.ltb_spec z y), (N.ltb_spec x z), (N.ltb_spec z x);
    try done; try lia.
  apply IH.
Qed.

Lemma item_ltb_irrefl a : item_ltb a a = false.
Proof. unfold item_ltb. rewrite decide_True by done. apply str_ltb_irrefl. Qed.

Lemma item_ltb_asym a b : item_ltb a b = true → item_ltb b a = false.
Proof.
  unfold item_ltb. intros H.
  destruct (decide (a.1 = b.1)) as [E|E].
  - rewrite decide_True by done. by apply str_ltb_asym.
  - rewrite decide_False by done. by apply str_ltb_asym.
Qed.

Lemma item_ltb_total a b : a ≠ b → item_ltb a b = true ∨ item_ltb b a = true.
Proof.
  unfold item_ltb. intros Hne.
  destruct (decide (a.1 = b.1)) as [E|E].
  - rewrite (decide_True (P := b.1 = a.1)) by done.
    apply str_ltb_total. destruct a, b; simpl in *; congruence.
  - rewrite (decide_False (P := b.1 = a.1)) by done.
    by apply str_ltb_total.
Qed.

Lemma item_ltb_trans a b c :
  item_ltb a b = true → item_ltb b c = true → item_ltb a c = true.
Proof.
  unfold item_ltb.
  destruct (decide (a.1 = b.1)) as [E1|E1], (decide (b.1 = c.1)) as [E2|E2];
    intros H1 H2.
  - rewrite decide_True by congruence. eauto using str_ltb_trans.
  - rewrite decide_False by congruence. by rewrite E1.
  - rewrite decide_False by congruence. by rewrite <- E2.
  - destruct (decide (a.1 = c.1)) as [E3|E3].
    + rewrite E3 in H1. apply str_ltb_asym in H1. congruence.
    + eauto using str_ltb_trans.
Qed.

#[global] Instance item_ge_total : Total item_ge.
Proof.
  intros a b. unfold item_ge.
  destruct (item_ltb a b) eqn:E; [right|by left].
  by apply item_ltb_asym.
Qed.

#[global] Instance item_ge_trans : Transitive item_ge.
Proof.
  intros a b c. unfold item_ge. intros H1 H2.
  destruct (item_ltb a c) eqn:E; [|done].
  destruct (decide (b = c)) as [->|Hbc]; [congruence|].
  destruct (item_ltb_total b c Hbc) as [H|H]; [congruence|].
  pose proof (item_ltb_trans _ _ _ E H). congruence.
Qed.

(** Items with different versions are ordered by their versions alone. *)
Lemma item_ge_versions a b :
  a.1 ≠ b.1 → item_ge a b → str_lt b.1 a.1.
Proof.
  unfold item_ge, item_ltb, str_lt. intros Hne H.
  rewrite decide_False in H by done.
  destruct (str_ltb_total a.1 b.1 Hne); congruence.
Qed.

Lemma sorted_items_perm (m : gmap (list N) (list N)) :
  sorted_items m ≡ₚ map_to_list m.
Proof. apply merge_sort_Permutation. Qed.

Lemma sorted_items_NoDup_keys (m : gmap (list N) (list N)) :
  NoDup (sorted_items m).*1.
Proof.
  rewrite sorted_items_perm. apply NoDup_fst_map_to_list.
Qed.

Lemma sorted_items_sorted (m : gmap (list N) (list N)) :
  StronglySorted item_ge (sorted_items m).
Proof. apply StronglySorted_merge_sort; apply _. Qed.

End Order.

(** ** The matchers *)

Section Matchers.

#[local] Arguments N.eqb : simpl never.

Lemma strip_prefix_app p s : strip_prefix p (p ++ s) = Some s.
Proof.
  induction p as [|x p IH]; simpl; [done|].
  by rewrite N.eqb_refl.
Qed.

Lemma strip_prefix_length p s r :
  strip_prefix p s = Some r → length s = (length p + length r)%nat.
Proof.
  revert s; induction p as [|x p IH]; intros s; simpl.
  - by intros [= ->].
  - destruct s as [|y s]; [done|].
    destruct (x =? y); [|done].
    intros H%IH. simpl. lia.
Qed.

Lemma span_not_length d s g r :
  span_not d s = (g, r) → length s = (length g + length r)%nat.
Proof.
  revert g r; induction s as [|c s IH]; intros g r; simpl.
  - by intros [= <- <-].
  - destruct (c =? d); [by intros [= <- <-]|].
    destruct (span_not d s) as [g' r'].
    intros [= <- <-]. simpl. by rewrite (IH g' r').
Qed.

Lemma span_not_app d a r :
  d ∉ a → span_not d (a ++ d :: r) = (a, d :: r).
Proof.
  induction a as [|c a IH]; simpl; intros Hd.
  - by rewrite N.eqb_refl.
  - apply not_elem_of_cons in Hd as [Hc Ha].
    destruct (N.eqb_spec c d) as [->|_]; [done|].
    by rewrite IH.
Qed.

(** Group 1 of either pattern never holds the excluded character. *)
Lemma span_not_group d s g r : span_not d s = (g, r) → d ∉ g.
Proof.
  revert g r; induction s as [|c s IH]; intros g r; simpl.
  - intros [= <- <-]. apply not_elem_of_nil.
  - destruct (N.eqb_spec c d) as [->|Hc].
    + intros [= <- <-]. apply not_elem_of_nil.
    + destruct (span_not d s) as [g' r'].
      intros [= <- <-]. apply not_elem_of_cons. split; [done|eauto].
Qed.

Lemma skip_spaces_length s : (length (skip_spaces s) ≤ length s)%nat.
Proof.
  induction s as [|c s IH]; simpl; [done|].
  destruct (is_space c); simpl; lia.
Qed.

(** A successful entry match consumes at least one character. *)
Lemma match_entry_at_shorter s g1 g2 rest :
  match_entry_at s = Some (g1, g2, rest) → (length rest < length s)%nat.
Proof.
  unfold match_entry_at. intros H.
  destruct (strip_prefix [QUOTE] s) as [s1|] eqn:E1; [|done].
  cbn [mbind option_bind] in H.
  destruct (span_not QUOTE s1) as [h1 s2] eqn:E2.
  destruct (decide (h1 = [])); [done|].
  destruct (strip_prefix [QUOTE; COLON] s2) as [s3|] eqn:E3; [|done].
  cbn [mbind option_bind] in H.
  destruct (strip_prefix [QUOTE] (skip_spaces s3)) as [s4|] eqn:E4; [|done].
  cbn [mbind option_bind] in H.
  destruct (span_not QUOTE s4) as [h2 s5] eqn:E5.
  destruct (decide (h2 = [])); [done|].
  destruct (strip_prefix [QUOTE] s5) as [s6|] eqn:E6; [|done].
  cbn [mbind option_bind] in H.
  injection H as <- <- <-.
  apply strip_prefix_length in E1, E3, E4, E6.
  apply span_not_length in E2, E5.
  pose proof (skip_spaces_length s3). simpl in *. lia.
Qed.

(** Any fuel above the length of the subject gives the same matches. *)
Lemma finditer_fuel_enough f1 f2 s :
  (length s < f1)%nat → (length s < f2)%nat →
  finditer_fuel f1 s = finditer_fuel f2 s.
Proof.
  revert f2 s; induction f1 as [|f1 IH]; intros f2 s H1 H2; [lia|].
  destruct f2 as [|f2]; [lia|]. simpl.
  destruct (match_entry_at s) as [[[g1 g2] rest]|] eqn:E.
  - apply match_entry_at_shorter in E. f_equal. apply IH; lia.
  - destruct s as [|c s]; [done|]. simpl in *. apply IH; lia.
Qed.

(** The equation of the scan, free of fuel. *)
Lemma finditer_entries_eq s :
  finditer_entries s =
  match match_entry_at s with
  | Some (g1, g2, rest) => (g1, g2) :: finditer_entries rest
  | None => match s with
            | [] => []
            | _ :: s' => finditer_entries s'
            end
  end.
Proof.
  unfold finditer_entries at 1. simpl.
  destruct (match_entry_at s) as [[[g1 g2] rest]|] eqn:E.
  - apply match_entry_at_shorter in E. f_equal.
    apply finditer_fuel_enough; lia.
  - by destruct s.
Qed.

Lemma finditer_entries_nil : finditer_entries [] = [].
Proof. reflexivity. Qed.

Lemma match_entry_at_other c s : c ≠ QUOTE → match_entry_at (c :: s) = None.
Proof.
  intros Hc. unfold match_entry_at. simpl.
  by destruct (N.eqb_spec QUOTE c) as [<-|_].
Qed.

(** Text without a quote holds no entry. *)
Lemma finditer_entries_skip lit s :
  QUOTE ∉ lit → finditer_entries (lit ++ s) = finditer_entries s.
Proof.
  induction lit as [|c lit IH]; simpl; [done|].
  intros [Hc Hl]%not_elem_of_cons.
  rewrite finditer_entries_eq, match_entry_at_other by done. auto.
Qed.

(** An entry as [format_entry] writes it is matched whole. *)
Lemma match_entry_at_format v p rest :
  v ≠ [] → p ≠ [] → QUOTE ∉ v → QUOTE ∉ p →
  match_entry_at (format_entry (v, p) ++ rest) = Some (v, p, rest).
Proof.
  intros Hv Hp Qv Qp. unfold match_entry_at, format_entry. simpl.
  rewrite <- !app_assoc. simpl.
  rewrite span_not_app by done.
  rewrite decide_False by done. simpl.
  rewrite <- !app_assoc. simpl.
  rewrite span_not_app by done.
  rewrite decide_False by done. simpl. done.
Qed.

End Matchers.

(** ** Reading back what [render_config] wrote *)

Section RoundTrip.

#[local] Arguments N.eqb : simpl never.

Lemma render_config_split version package_id versions_str :
  render_config version package_id versions_str =
  HEAD1 ++ version ++ HEAD2 ++ package_id ++ HEAD3 ++ OPEN
  ++ versions_str ++ TAIL.
Proof. reflexivity. Qed.

Lemma finditer_join items post :
  Forall plain_entry items → QUOTE ∉ post →
  finditer_entries (join SEP (map format_entry items) ++ post) = items.
Proof.
  intros Hall Hpost. induction Hall as [|[v p] items [Hv Hp] Hall IH].
  - simpl. rewrite <- (app_nil_r post).
    by rewrite finditer_entries_skip.
  - destruct Hv as (Hv & Qv & _), Hp as (Hp & Qp & _).
    destruct items as [|e items].
    + simpl join. rewrite finditer_entries_eq.
      rewrite match_entry_at_format by done.
      rewrite <- (app_nil_r post).
      by rewrite finditer_entries_skip.
    + change (join SEP (map format_entry ((v, p) :: e :: items)))
        with (format_entry (v, p)
              ++ SEP ++ join SEP (map format_entry (e :: items))).
      rewrite <- !app_assoc. rewrite finditer_entries_eq.
      rewrite match_entry_at_format by done.
      rewrite finditer_entries_skip; [by rewrite IH|].
      apply (bool_decide_unpack _). by vm_compute.
Qed.

Lemma mismatch_strip p x r :
  mismatch p x = true → strip_prefix p (x ++ r) = None.
Proof.
  revert x; induction p as [|a p IH]; intros [|b x]; simpl; try done.
  destruct (a =? b); auto.
Qed.

Lemma search_skip_literal lit r :
  no_match_start lit = true →
  re_search_versions (lit ++ r) = re_search_versions r.
Proof.
  induction lit as [|c lit IH]; [done|].
  intros [Hm Hl]%andb_prop.
  change ((c :: lit) ++ r) with (c :: (lit ++ r)).
  cbn [re_search_versions]. unfold match_versions_at at 1.
  pose proof (mismatch_strip _ (c :: lit) r Hm) as E.
  change ((c :: lit) ++ r) with (c :: (lit ++ r)) in E.
  rewrite E. auto.
Qed.

Lemma strip_prefix_barrier p x c t s1 :
  c ∉ p → strip_prefix p (x ++ c :: t) = Some s1 →
  ∃ x', x = p ++ x' ∧ s1 = x' ++ c :: t.
Proof.
  revert x; induction p as [|a p IH]; intros x Hc; simpl.
  - intros [= <-]. by exists x.
  - apply not_elem_of_cons in Hc as [Hca Hcp].
    destruct x as [|y x]; simpl.
    + by destruct (N.eqb_spec a c) as [->|_].
    + destruct (N.eqb_spec a y) as [->|_]; [|done].
      intros (x' & -> & ->)%IH; [|done]. by exists x'.
Qed.

Lemma skip_spaces_barrier x c t :
  is_space c = false →
  ∃ x', skip_spaces (x ++ c :: t) = x' ++ c :: t ∧ x' ⊆ x.
Proof.
  intros Hc. induction x as [|y x (x' & IH & Hsub)]; simpl.
  - rewrite Hc. by exists [].
  - destruct (is_space y).
    + exists x'. split; [done|]. by apply list_subseteq_cons.
    + by exists (y :: x).
Qed.

(** No match of the versions pattern starts in text without an opening
    brace that is followed by a character the pattern cannot cross. *)
Lemma match_versions_at_barrier x c t :
  LBRACE ∉ x → c ∉ text "versions:" → is_space c = false → c ≠ LBRACE →
  match_versions_at (x ++ c :: t) = None.
Proof.
  intros Hx Hc Hs Hb. unfold match_versions_at.
  destruct (strip_prefix (text "versions:") (x ++ c :: t)) as [s1|] eqn:E1;
    [|done].
  apply strip_prefix_barrier in E1 as (x1 & -> & ->); [|done].
  cbn [mbind option_bind].
  destruct (skip_spaces_barrier x1 c t Hs) as (x2 & -> & Hsub).
  destruct x2 as [|y x2]; simpl.
  - by destruct (N.eqb_spec LBRACE c) as [<-|_].
  - destruct (N.eqb_spec LBRACE y) as [<-|_]; [|done].
    exfalso. apply Hx, elem_of_app. right. apply Hsub. by left.
Qed.

Lemma search_skip_barrier x c t :
  LBRACE ∉ x → c ∉ text "versions:" → is_space c = false → c ≠ LBRACE →
  re_search_versions (x ++ c :: t) = re_search_versions (c :: t).
Proof.
  intros Hx Hc Hs Hb. induction x as [|y x IH]; [done|].
  change ((y :: x) ++ c :: t) with (y :: (x ++ c :: t)).
  cbn [re_search_versions].
  change (y :: (x ++ c :: t)) with ((y :: x) ++ c :: t).
  rewrite match_versions_at_barrier by done.
  apply IH. by apply not_elem_of_cons in Hx as [_ ?].
Qed.

Lemma match_versions_at_open versions_str :
  RBRACE ∉ versions_str →
  match_versions_at (OPEN ++ versions_str ++ TAIL)
  = Some (NL ++ text "    " ++ versions_str ++ NL ++ text "  ").
Proof.
  intros Hv. unfold match_versions_at.
  change (OPEN ++ versions_str ++ TAIL)
    with (text "versions:" ++ text " {" ++ NL ++ text "    "
          ++ versions_str ++ TAIL).
  rewrite strip_prefix_app. cbn [mbind option_bind].
  change (skip_spaces (text " {" ++ NL ++ text "    " ++ versions_str ++ TAIL))
    with ([LBRACE] ++ NL ++ text "    " ++ versions_str ++ TAIL).
  rewrite strip_prefix_app. cbn [mbind option_bind].
  replace (NL ++ text "    " ++ versions_str ++ TAIL)
    with ((NL ++ text "    " ++ versions_str ++ NL ++ text "  ")
          ++ RBRACE :: drop 4 TAIL)
    by (by rewrite <- !app_assoc).
  rewrite span_not_app; [done|].
  rewrite !elem_of_app. intros [H|[H|[H|[H|H]]]]; try done;
    revert H; apply (bool_decide_unpack _); by vm_compute.
Qed.

(** [re.search] finds the versions block that [render_config] wrote. *)
Lemma re_search_render version package_id versions_str :
  LBRACE ∉ version → LBRACE ∉ package_id → RBRACE ∉ versions_str →
  re_search_versions (render_config version package_id versions_str)
  = Some (NL ++ text "    " ++ versions_str ++ NL ++ text "  ").
Proof.
  intros Hv Hp Hs. rewrite render_config_split.
  rewrite search_skip_literal by (by vm_compute).
  set (r2 := package_id ++ HEAD3 ++ OPEN ++ versions_str ++ TAIL).
  change (version ++ HEAD2 ++ r2)
    with (version ++ QUOTE :: (tail HEAD2 ++ r2)).
  rewrite search_skip_barrier; try done;
    [|apply (bool_decide_unpack _); by vm_compute].
  change (QUOTE :: (tail HEAD2 ++ r2)) with (HEAD2 ++ r2).
  rewrite search_skip_literal by (by vm_compute).
  subst r2. set (r3 := OPEN ++ versions_str ++ TAIL).
  change (package_id ++ HEAD3 ++ r3)
    with (package_id ++ QUOTE :: (tail HEAD3 ++ r3)).
  rewrite search_skip_barrier; try done;
    [|apply (bool_decide_unpack _); by vm_compute].
  change (QUOTE :: (tail HEAD3 ++ r3)) with (HEAD3 ++ r3).
  rewrite search_skip_literal by (by vm_compute).
  subst r3.
  destruct (OPEN ++ versions_str ++ TAIL) eqn:E;
    cbn [re_search_versions]; rewrite <- E;
    by rewrite match_versions_at_open.
Qed.

Lemma strip_prefix_eq p s r : strip_prefix p s = Some r → s = p ++ r.
Proof.
  revert s; induction p as [|x p IH]; intros s; simpl.
  - by intros [= ->].
  - destruct s as [|y s]; [done|].
    destruct (N.eqb_spec x y) as [->|_]; [|done].
    by intros ->%IH.
Qed.

Lemma span_not_eq d s g r : span_not d s = (g, r) → s = g ++ r.
Proof.
  revert g r; induction s as [|c s IH]; intros g r; simpl.
  - by intros [= <- <-].
  - destruct (c =? d); [by intros [= <- <-]|].
    destruct (span_not d s) as [g' r'].
    intros [= <- <-]. simpl. by rewrite (IH g' r').
Qed.

Lemma skip_spaces_suffix s : ∃ w, s = w ++ skip_spaces s.
Proof.
  induction s as [|c s [w IH]]; simpl; [by exists []|].
  destruct (is_space c).
  - exists (c :: w). simpl. by rewrite <- IH.
  - by exists [].
Qed.

(** The shape of the text an entry match consumed. *)
Lemma match_entry_at_inv s g1 g2 rest :
  match_entry_at s = Some (g1, g2, rest) →
  ∃ w, s = [QUOTE] ++ g1 ++ [QUOTE; COLON] ++ w ++ [QUOTE] ++ g2
           ++ [QUOTE] ++ rest
       ∧ g1 ≠ [] ∧ g2 ≠ [] ∧ (QUOTE ∉ g1) ∧ (QUOTE ∉ g2).
Proof.
  unfold match_entry_at. intros H.
  destruct (strip_prefix [QUOTE] s) as [s1|] eqn:E1; [|done].
  cbn [mbind option_bind] in H.
  destruct (span_not QUOTE s1) as [h1 s2] eqn:E2.
  destruct (decide (h1 = [])); [done|].
  destruct (strip_prefix [QUOTE; COLON] s2) as [s3|] eqn:E3; [|done].
  cbn [mbind option_bind] in H.
  destruct (strip_prefix [QUOTE] (skip_spaces s3)) as [s4|] eqn:E4; [|done].
  cbn [mbind option_bind] in H.
  destruct (span_not QUOTE s4) as [h2 s5] eqn:E5.
  destruct (decide (h2 = [])); [done|].
  destruct (strip_prefix [QUOTE] s5) as [s6|] eqn:E6; [|done].
  cbn [mbind option_bind] in H.
  injection H as <- <- <-.
  destruct (skip_spaces_suffix s3) as [w Hw]. exists w.
  pose proof (span_not_group _ _ _ _ E2).
  pose proof (span_not_group _ _ _ _ E5).
  apply strip_prefix_eq in E1, E3, E4, E6.
  apply span_not_eq in E2, E5.
  repeat split; try done.
  by rewrite E1, E2, E3, Hw, E4, E5, E6.
Qed.

Ltac in_app :=
  repeat (rewrite elem_of_cons || rewrite elem_of_app); auto 12.

(** Every entry [re.finditer] yields is non-empty on both sides, free of
    quotes, and made of characters of the subject. *)
Lemma finditer_fuel_elem f s e :
  e ∈ finditer_fuel f s →
  e.1 ≠ [] ∧ e.2 ≠ [] ∧ (QUOTE ∉ e.1) ∧ (QUOTE ∉ e.2) ∧ e.1 ⊆ s ∧ e.2 ⊆ s.
Proof.
  revert s; induction f as [|f IH]; intros s; simpl.
  - by intros ?%elem_of_nil.
  - destruct (match_entry_at s) as [[[g1 g2] rest]|] eqn:E.
    + apply match_entry_at_inv in E as (w & -> & ? & ? & ? & ?).
      intros [->|Hin]%elem_of_cons; simpl.
      * repeat split; try done; intros x Hx; in_app.
      * destruct (IH _ Hin) as (? & ? & ? & ? & S1 & S2).
        repeat split; try done; intros x Hx;
          [apply S1 in Hx|apply S2 in Hx]; in_app.
    + destruct s as [|c s]; [by intros ?%elem_of_nil|].
      intros Hin. destruct (IH _ Hin) as (? & ? & ? & ? & S1 & S2).
      repeat split; try done; intros x Hx; right; auto.
Qed.

Lemma foldl_insert_lookup (l : list (pystr * pystr))
    (acc : gmap (list N) (list N)) k v :
  foldl (λ versions m, <[m.1 := m.2]> versions) acc l !! k = Some v →
  (k, v) ∈ l ∨ acc !! k = Some v.
Proof.
  revert acc; induction l as [|[k' v'] l IH]; intros acc; simpl; [auto|].
  intros [Hin|Hacc]%IH; [left; by right|].
  destruct (decide (k' = k)) as [->|Hne].
  - rewrite lookup_insert_eq in Hacc. injection Hacc as ->. left. by left.
  - rewrite lookup_insert_ne in Hacc by done. by right.
Qed.

(** Whatever the file holds, the entries read from it are plain. *)
Lemma parse_versions_plain content k v :
  parse_versions content !! k = Some v → plain k ∧ plain v.
Proof.
  unfold parse_versions.
  destruct (re_search_versions content) as [g|] eqn:E; [|done].
  assert (RBRACE ∉ g) as Hg.
  { clear k v. revert E. induction content as [|c content IH]; simpl.
    - by destruct (match_versions_at []).
    - destruct (match_versions_at (c :: content)) as [g'|] eqn:E'; [|done].
      intros [= ->]. clear IH. unfold match_versions_at in E'.
      destruct (strip_prefix _ (c :: content)) as [s1|]; [|done].
      cbn [mbind option_bind] in E'.
      destruct (strip_prefix [LBRACE] (skip_spaces s1)) as [s2|]; [|done].
      cbn [mbind option_bind] in E'.
      destruct (span_not RBRACE s2) as [h s3] eqn:E3.
      destruct (strip_prefix [RBRACE] s3); [|done].
      cbn [mbind option_bind] in E'. injection E' as <-.
      by eapply span_not_group. }
  intros [Hin|Hemp]%foldl_insert_lookup; [|done].
  apply finditer_fuel_elem in Hin as (? & ? & ? & ? & H1 & H2).
  simpl in *. repeat split; try done.
  - intros Hk. by apply Hg, H1.
  - intros Hv. by apply Hg, H2.
Qed.

Lemma foldl_insert_list_to_map (l : list (pystr * pystr))
    (acc : gmap (list N) (list N)) :
  NoDup l.*1 →
  foldl (λ versions m, <[m.1 := m.2]> versions) acc l
  = list_to_map l ∪ acc.
Proof.
  revert acc; induction l as [|[k v] l IH]; intros acc; simpl.
  - intros _. by rewrite (left_id_L ∅ (∪)).
  - intros [Hk Hl]%NoDup_cons. rewrite IH by done.
    rewrite <- insert_union_l. symmetry. apply insert_union_r.
    by apply not_elem_of_list_to_map_1.
Qed.

Lemma join_not_elem (c : N) sep parts :
  c ∉ sep → Forall (λ p, c ∉ p) parts → c ∉ join sep parts.
Proof.
  intros Hsep Hall. induction Hall as [|p parts Hp Hall IH].
  - apply not_elem_of_nil.
  - destruct parts as [|q parts]; [done|].
    change (join sep (p :: q :: parts))
      with (p ++ sep ++ join sep (q :: parts)).
    rewrite !elem_of_app. tauto.
Qed.

(** Reading back a rendered registry whose entries are plain. *)
Lemma parse_render (version package_id : pystr)
    (m : gmap (list N) (list N)) :
  LBRACE ∉ version → LBRACE ∉ package_id →
  map_Forall (λ k v, plain k ∧ plain v) m →
  parse_versions (render_config version package_id (versions_block m)) = m.
Proof.
  intros Hv Hp Hm.
  assert (Forall plain_entry (sorted_items m)) as Hall.
  { apply Forall_forall. intros [k v] Hin.
    rewrite sorted_items_perm in Hin.
    apply elem_of_map_to_list in Hin. by apply Hm in Hin. }
  unfold parse_versions. rewrite re_search_render; try done.
  - unfold versions_block.
    rewrite (app_assoc NL). rewrite finditer_entries_skip
      by (apply (bool_decide_unpack _); by vm_compute).
    rewrite finditer_join; [|done|apply (bool_decide_unpack _); by vm_compute].
    rewrite foldl_insert_list_to_map by apply sorted_items_NoDup_keys.
    rewrite (right_id_L ∅ (∪)).
    rewrite (list_to_map_proper _ (map_to_list m)).
    + apply list_to_map_to_list.
    + apply sorted_items_NoDup_keys.
    + apply sorted_items_perm.
  - apply join_not_elem; [apply (bool_decide_unpack _); by vm_compute|].
    apply Forall_map. eapply Forall_impl; [exact Hall|].
    intros [k v] [(_ & Qk & Bk) (_ & Qv & Bv)]. unfold format_entry.
    cbn [fst snd] in *. rewrite !not_elem_of_app.
    repeat split; try done; apply (bool_decide_unpack _); by vm_compute.
Qed.

End RoundTrip.

(** ** Runs *)

Section Runs.

#[local] Arguments text : simpl never.
#[local] Arguments b64encode : simpl never.
#[local] Arguments new_content : simpl never.
#[local] Arguments get_dar_path : simpl never.
#[local] Arguments config_path : simpl never.

Ltac run :=
  unfold subprocess_run, print, emit, sys_exit, raise, read_file, write_file,
    mbind, run_bind, mret, run_ret; cbn [fst snd files trace].

Lemma log_nil σ : log σ [] = σ.
Proof. destruct σ. unfold log. simpl. by rewrite app_nil_r. Qed.

Lemma log_log σ a b : log (log σ a) b = log σ (a ++ b).
Proof. unfold log. simpl. by rewrite app_assoc. Qed.

Lemma trace_registry_failed env σ package_id version :
  trace (registry_failed env σ package_id version) = trace σ.
Proof.
  unfold registry_failed.
  destruct (_ && _); [done|]. destruct (registry_write_error env); [done|].
  by destruct (registry_write_cut env).
Qed.

Lemma calls_of_app a b : calls_of (a ++ b) = calls_of a ++ calls_of b.
Proof. apply omap_app. Qed.

(** [vet_dar] calls both participants, whatever they answer, and
    returns. *)
Lemma vet_dar_run env package_id σ :
  vet_dar env package_id σ
  = (Ret (), log σ (vet_events env package_id PROVIDER_PORT APP_PROVIDER
                    ++ vet_events env package_id USER_PORT APP_USER
                    ++ [Printed MsgVetComplete])).
Proof.
  unfold vet_dar, vet_events. run.
  destruct (decide (returncode (grpcurl env PROVIDER_PORT _) ≠ 0%Z));
    destruct (decide (returncode (grpcurl env USER_PORT _) ≠ 0%Z));
    run; unfold log; cbn [files trace]; by rewrite <- !app_assoc.
Qed.

Section Upload.

Context (env : Env) (dar_path version : pystr) (bytes : list N).
Hypothesis Hdar : dar_files env dar_path = Some bytes.

Let req := upload_request_of bytes version.
Let r1 := grpcurl env PROVIDER_PORT req.
Let r2 := grpcurl env USER_PORT req.

Lemma upload_dar_provider_fails σ :
  returncode r1 ≠ 0%Z →
  upload_dar env dar_path version σ
  = (SysExit 1 DistributionError,
     log σ [ Printed (MsgEncoded (length bytes)); Called PROVIDER_PORT req
           ; Printed (MsgUploadFailed APP_PROVIDER (stderr r1)) ]).
Proof.
  intros H1. unfold upload_dar. rewrite Hdar. run.
  fold (upload_request_of bytes version). fold req. fold r1.
  rewrite decide_True by done. run.
  unfold log; cbn [files trace]; by rewrite <- !app_assoc.
Qed.

Lemma upload_dar_no_id σ :
  returncode r1 = 0%Z → package_id_of r1 = None →
  upload_dar env dar_path version σ
  = (SysExit 1 DistributionError,
     log σ [ Printed (MsgEncoded (length bytes)); Called PROVIDER_PORT req
           ; Printed (MsgUploadOk APP_PROVIDER); Printed MsgNoPackageId ]).
Proof.
  intros H1 Hid. unfold upload_dar. rewrite Hdar. run.
  fold (upload_request_of bytes version). fold req. fold r1.
  rewrite decide_False by (by intros []). run.
  unfold package_id_of in Hid.
  destruct (stdout_darIds r1) as [[|[|c first] ids]|]; try done; run;
    unfold log; cbn [files trace]; by rewrite <- !app_assoc.
Qed.

Lemma upload_dar_user_fails σ package_id :
  returncode r1 = 0%Z → package_id_of r1 = Some package_id →
  returncode r2 ≠ 0%Z →
  upload_dar env dar_path version σ
  = (SysExit 1 DistributionError,
     log σ [ Printed (MsgEncoded (length bytes)); Called PROVIDER_PORT req
           ; Printed (MsgUploadOk APP_PROVIDER)
           ; Printed (MsgPackageId package_id); Called USER_PORT req
           ; Printed (MsgUploadFailed APP_USER (stderr r2)) ]).
Proof.
  intros H1 Hid H2. unfold upload_dar. rewrite Hdar. run.
  fold (upload_request_of bytes version). fold req. fold r1.
  rewrite decide_False by (by intros []). run.
  unfold package_id_of in Hid.
  destruct (stdout_darIds r1) as [[|[|c first] ids]|]; try done.
  injection Hid as <-. run. fold r2.
  rewrite decide_True by done. run.
  unfold log; cbn [files trace]; by rewrite <- !app_assoc.
Qed.

Lemma upload_dar_ok σ package_id :
  returncode r1 = 0%Z → package_id_of r1 = Some package_id →
  returncode r2 = 0%Z →
  upload_dar env dar_path version σ
  = (Ret package_id,
     log σ ([ Printed (MsgEncoded (length bytes)); Called PROVIDER_PORT req
            ; Printed (MsgUploadOk APP_PROVIDER)
            ; Printed (MsgPackageId package_id); Called USER_PORT req
            ; Printed (MsgUploadOk APP_USER) ]
            ++ vet_events env package_id PROVIDER_PORT APP_PROVIDER
            ++ vet_events env package_id USER_PORT APP_USER
            ++ [Printed MsgVetComplete])).
Proof.
  intros H1 Hid H2. unfold upload_dar. rewrite Hdar. run.
  fold (upload_request_of bytes version). fold req. fold r1.
  rewrite decide_False by (by intros []). run.
  unfold package_id_of in Hid.
  destruct (stdout_darIds r1) as [[|[|c first] ids]|]; try done.
  injection Hid as <-. run. fold r2.
  rewrite decide_False by (by intros []). run.
  rewrite vet_dar_run. rewrite <- log_log. f_equal.
  unfold log; cbn [files trace]; by rewrite <- !app_assoc.
Qed.

End Upload.

Lemma upload_dar_missing env dar_path version σ :
  dar_files env dar_path = None →
  upload_dar env dar_path version σ
  = (SysExit 1 ArtifactNotFoundError,
     log σ [Printed (MsgDarNotFound dar_path)]).
Proof. intros H. unfold upload_dar. rewrite H. by run. Qed.

Lemma update_package_config_ok env package_id version σ :
  registry_io_ok env σ = true →
  update_package_config env package_id version σ
  = (Ret (), registry_updated env σ package_id version).
Proof.
  unfold registry_io_ok, update_package_config, write_file, registry_updated,
    registry_content, store.
  run. intros H.
  destruct (registry_write_error env); [done|].
  destruct (registry_write_cut env); [done|].
  destruct (files σ !! config_path env) as [c|] eqn:E;
    cbn [fmap option_fmap option_map default]; [|done].
  destruct (registry_read_error env); [|done].
  rewrite (bool_decide_eq_false_2 (Some c = None)) in H by done. done.
Qed.

Lemma update_package_config_fails env package_id version σ :
  registry_io_ok env σ = false →
  update_package_config env package_id version σ
  = (Uncaught RegistryWriteError, registry_failed env σ package_id version).
Proof.
  unfold registry_io_ok, update_package_config, write_file, registry_failed,
    registry_content, store.
  run. intros H.
  destruct (files σ !! config_path env) as [c|] eqn:E;
    cbn [fmap option_fmap option_map default].
  - rewrite (bool_decide_eq_true_2 (Some c ≠ None)) by done.
    destruct (registry_read_error env); [done|]. cbn [andb].
    destruct (registry_write_error env); [done|].
    destruct (registry_write_cut env); [done|].
    rewrite (bool_decide_eq_true_2 (None = None)) in H by done. done.
  - rewrite (bool_decide_eq_false_2 (None ≠ None)) by (by intros []).
    rewrite andb_false_r.
    destruct (registry_write_error env); [done|].
    destruct (registry_write_cut env); [done|].
    rewrite !(bool_decide_eq_true_2 (None = None)) in H by done.
    cbn in H. by rewrite orb_true_r in H.
Qed.

Lemma main_usage env σ :
  (2 < length (argv env))%nat →
  main env σ = (SysExit 1 UsageError, log σ [Printed MsgUsage]).
Proof. intros H. unfold main. rewrite decide_True by done. by run. Qed.

Lemma main_config_error env σ :
  (length (argv env) ≤ 2)%nat → resolved_version env = None →
  ∃ m, main env σ = (SysExit 1 ConfigError, log σ [Printed m]).
Proof.
  intros H Hv. unfold main. rewrite decide_False by lia.
  unfold resolved_version in Hv. unfold read_version_from_daml_yaml.
  destruct (argv env) as [|a0 [|a1 [|a2 l]]]; simpl in H; try done; try lia;
    destruct (daml_yaml env) as [[|[[|c v]|]]|]; try done;
    by eexists; run.
Qed.

Lemma main_resolved env σ version :
  resolved_version env = Some version →
  main env σ
  = (package_id ← upload_dar env (get_dar_path env version) version;
     update_package_config env package_id version;;
     print MsgUploadComplete) (log σ (version_events env version)).
Proof.
  intros Hv. unfold main, resolved_version, version_events in *.
  unfold read_version_from_daml_yaml.
  destruct (argv env) as [|a0 [|a1 [|a2 l]]]; try done.
  - rewrite decide_False by (simpl; lia).
    destruct (daml_yaml env) as [[|[[|c v]|]]|]; try done.
    injection Hv as <-. by run.
  - rewrite decide_False by (simpl; lia).
    destruct (daml_yaml env) as [[|[[|c v]|]]|]; try done.
    injection Hv as <-. by run.
  - rewrite decide_False by (simpl; lia).
    injection Hv as <-. run. by rewrite log_nil.
Qed.

(** [main] follows the path the environment selects. *)
Lemma main_provider_fails env σ version bytes :
  resolved_version env = Some version →
  dar_files env (get_dar_path env version) = Some bytes →
  let r1 := grpcurl env PROVIDER_PORT (upload_request_of bytes version) in
  returncode r1 ≠ 0%Z →
  main env σ
  = (SysExit 1 DistributionError,
     log σ (version_events env version
            ++ provider_events env bytes version
            ++ [Printed (MsgUploadFailed APP_PROVIDER (stderr r1))])).
Proof.
  intros Hv Hd r1 H1. rewrite (main_resolved _ _ _ Hv).
  unfold mbind at 1, run_bind.
  rewrite (upload_dar_provider_fails _ _ _ _ Hd) by done.
  by rewrite log_log.
Qed.

Lemma main_no_id env σ version bytes :
  resolved_version env = Some version →
  dar_files env (get_dar_path env version) = Some bytes →
  let r1 := grpcurl env PROVIDER_PORT (upload_request_of bytes version) in
  returncode r1 = 0%Z → package_id_of r1 = None →
  main env σ
  = (SysExit 1 DistributionError,
     log σ (version_events env version
            ++ provider_events env bytes version
            ++ [Printed (MsgUploadOk APP_PROVIDER); Printed MsgNoPackageId])).
Proof.
  intros Hv Hd r1 H1 Hid. rewrite (main_resolved _ _ _ Hv).
  unfold mbind at 1, run_bind.
  rewrite (upload_dar_no_id _ _ _ _ Hd) by done.
  by rewrite log_log.
Qed.

Lemma main_user_fails env σ version bytes package_id :
  resolved_version env = Some version →
  dar_files env (get_dar_path env version) = Some bytes →
  let r1 := grpcurl env PROVIDER_PORT (upload_request_of bytes version) in
  let r2 := grpcurl env USER_PORT (upload_request_of bytes version) in
  returncode r1 = 0%Z → package_id_of r1 = Some package_id →
  returncode r2 ≠ 0%Z →
  main env σ
  = (SysExit 1 DistributionError,
     log σ (version_events env version
            ++ provider_events env bytes version
            ++ [ Printed (MsgUploadOk APP_PROVIDER)
               ; Printed (MsgPackageId package_id)
               ; Called USER_PORT (upload_request_of bytes version)
               ; Printed (MsgUploadFailed APP_USER (stderr r2)) ])).
Proof.
  intros Hv Hd r1 r2 H1 Hid H2. rewrite (main_resolved _ _ _ Hv).
  unfold mbind at 1, run_bind.
  rewrite (upload_dar_user_fails _ _ _ _ Hd _ package_id) by done.
  by rewrite log_log.
Qed.

Lemma main_uploaded env σ version bytes package_id :
  resolved_version env = Some version →
  dar_files env (get_dar_path env version) = Some bytes →
  let r1 := grpcurl env PROVIDER_PORT (upload_request_of bytes version) in
  let r2 := grpcurl env USER_PORT (upload_request_of bytes version) in
  returncode r1 = 0%Z → package_id_of r1 = Some package_id →
  returncode r2 = 0%Z →
  main env σ
  = (update_package_config env package_id version;;
     print MsgUploadComplete)
      (log σ (version_events env version
              ++ upload_events env bytes version package_id)).
Proof.
  intros Hv Hd r1 r2 H1 Hid H2. rewrite (main_resolved _ _ _ Hv).
  unfold mbind at 1, run_bind.
  rewrite (upload_dar_ok _ _ _ _ Hd _ package_id) by done.
  by rewrite log_log.
Qed.

Lemma main_path_total env σ : main_path env σ (main env σ).
Proof.
  destruct (decide (2 < length (argv env))%nat) as [Ha|Ha].
  { rewrite main_usage by done. by constructor. }
  destruct (resolved_version env) as [version|] eqn:Hv; last first.
  { destruct (main_config_error env σ) as [m ->]; [lia|done|].
    constructor; [lia|done]. }
  destruct (dar_files env (get_dar_path env version)) as [bytes|] eqn:Hd;
    last first.
  { rewrite (main_resolved _ _ _ Hv). unfold mbind at 1, run_bind.
    rewrite upload_dar_missing by done. rewrite log_log.
    by constructor. }
  set (r1 := grpcurl env PROVIDER_PORT (upload_request_of bytes version)).
  destruct (decide (returncode r1 = 0%Z)) as [H1|H1]; last first.
  { rewrite (main_provider_fails _ _ _ _ Hv Hd) by done.
    by apply path_provider. }
  destruct (package_id_of r1) as [package_id|] eqn:Hid; last first.
  { rewrite (main_no_id _ _ _ _ Hv Hd) by done. by apply path_no_id. }
  set (r2 := grpcurl env USER_PORT (upload_request_of bytes version)).
  destruct (decide (returncode r2 = 0%Z)) as [H2|H2]; last first.
  { rewrite (main_user_fails _ _ _ _ package_id Hv Hd) by done.
    by apply path_user. }
  rewrite (main_uploaded _ _ _ _ package_id Hv Hd) by done.
  set (σ1 := log σ _).
  destruct (registry_io_ok env σ) eqn:Hio.
  - unfold mbind, run_bind.
    rewrite update_package_config_ok by done.
    by apply path_done.
  - unfold mbind, run_bind.
    rewrite update_package_config_fails by done.
    by apply path_registry.
Qed.

Lemma calls_of_version_events env version :
  calls_of (version_events env version) = [].
Proof.
  unfold version_events. by destruct (argv env) as [|a0 [|a1 [|a2 l]]].
Qed.

Lemma calls_of_vet_events env package_id port participant_name :
  calls_of (vet_events env package_id port participant_name)
  = [(port, make_vet_request package_id)].
Proof. reflexivity. Qed.

Lemma calls_of_upload_events env bytes version package_id :
  calls_of (upload_events env bytes version package_id)
  = [ (PROVIDER_PORT, upload_request_of bytes version)
    ; (USER_PORT, upload_request_of bytes version)
    ; (PROVIDER_PORT, make_vet_request package_id)
    ; (USER_PORT, make_vet_request package_id) ].
Proof.
  unfold upload_events. rewrite !calls_of_app, !calls_of_vet_events. done.
Qed.

Lemma no_vet_in_uploads (l : list (Z * request)) :
  Forall (λ c, ∃ r, c.2 = UploadDar r) l →
  ∀ port r, (port, VetDar r) ∉ l.
Proof.
  intros Hall port r Hin.
  by destruct (proj1 (Forall_forall _ _) Hall _ Hin) as [r' ?].
Qed.

End Runs.

(** ** The registry *)

Section Registry.

Lemma descending_of_item_ge (l : list (pystr * pystr)) :
  StronglySorted item_ge l → NoDup l.*1 →
  StronglySorted version_descending l.
Proof.
  induction 1 as [|a l Hl IH Ha]; [constructor|].
  cbn. intros [Hnotin Hnd]%NoDup_cons. constructor; [by apply IH|].
  apply Forall_forall. intros b Hb.
  apply item_ge_versions; [|by apply (proj1 (Forall_forall _ _) Ha)].
  intros Heq. apply Hnotin. rewrite Heq. apply list_elem_of_fmap.
  by exists b.
Qed.

#[local] Instance version_descending_antisymm :
  AntiSymm (=) version_descending.
Proof.
  intros a b Hab Hba. unfold version_descending, str_lt in *.
  apply str_ltb_asym in Hab. congruence.
Qed.

(** The descending list of the items of a dict is unique: any sorting
    algorithm returns [sorted_items]. *)
Lemma sorted_items_unique (m : gmap (list N) (list N)) l :
  l ≡ₚ map_to_list m → StronglySorted version_descending l →
  l = sorted_items m.
Proof.
  intros Hperm Hsorted. apply (StronglySorted_unique version_descending).
  - done.
  - apply descending_of_item_ge;
      [apply sorted_items_sorted|apply sorted_items_NoDup_keys].
  - by rewrite sorted_items_perm.
Qed.

Lemma new_versions_plain content package_id version :
  plain version → plain package_id →
  map_Forall (λ k v, plain k ∧ plain v)
    (new_versions content package_id version).
Proof.
  intros Hv Hp k v. unfold new_versions.
  destruct (decide (version = k)) as [<-|Hne].
  - rewrite lookup_insert_eq. by intros [= <-].
  - rewrite lookup_insert_ne by done. apply parse_versions_plain.
Qed.

End Registry.

(** ** Exit status *)

Section ExitStatus.

(** Every path of [upload_dar.py] but the last ends in status 1 with one
    of the fatal errors of the design. *)
Lemma main_exit_status env σ :
  (main env σ).1 = Ret ()
  ∨ exit_status (main env σ).1 = 1%Z
    ∧ ∃ kind, abort_of (main env σ).1 = Some kind ∧ kind ∈ design_fatal.
Proof.
  destruct (main_path_total env σ); cbn [fst]; auto; right;
    (split; [done|]); eexists; (split; [reflexivity|]);
    unfold design_fatal; rewrite !elem_of_cons; auto 10.
Qed.

(** What the participants answer to [VetDar] does not select the path. *)
Lemma main_result_same_but_vetting env env' σ :
  same_but_vetting env env' → (main env' σ).1 = (main env σ).1.
Proof.
  intros (Ha & Hp & Hy & Hd & Hr & Hw & Hc & Hg).
  assert (resolved_version env' = resolved_version env) as Hrv.
  { unfold resolved_version. by rewrite Ha, Hy. }
  assert (∀ v, get_dar_path env' v = get_dar_path env v) as Hpath.
  { intros v. unfold get_dar_path, DAML_PROJECT_PATH. by rewrite Hp. }
  assert (registry_io_ok env' σ = registry_io_ok env σ) as Hio.
  { unfold registry_io_ok, config_path. by rewrite Hr, Hw, Hc, Hp. }
  assert (∀ port bytes v,
            grpcurl env' port (upload_request_of bytes v)
            = grpcurl env port (upload_request_of bytes v)) as Hup.
  { intros. symmetry. apply Hg. }
  destruct (main_path_total env σ)
    as [Hl|m Hl Hv|v Hv Hf|v b Hv Hf r1 H1|v b Hv Hf r1 H1 Hid
       |v b pid Hv Hf r1 r2 H1 Hid H2|v b pid Hv Hf r1 r2 H1 Hid H2 Hok
       |v b pid Hv Hf r1 r2 H1 Hid H2 Hok];
    cbn [fst]; try rewrite <- Hrv in Hv;
    try rewrite Hd, <- Hpath in Hf;
    try (subst r1; rewrite <- (Hup PROVIDER_PORT) in H1);
    try (rewrite <- (Hup PROVIDER_PORT) in Hid);
    try (subst r2; rewrite <- (Hup USER_PORT) in H2).
  - rewrite main_usage by (by rewrite <- Ha). done.
  - destruct (main_config_error env' σ) as [m' ->];
      [by rewrite <- Ha|congruence|done].
  - rewrite (main_resolved _ _ _ Hv). unfold mbind at 1, run_bind.
    by rewrite upload_dar_missing.
  - by rewrite (main_provider_fails _ _ _ _ Hv Hf).
  - by rewrite (main_no_id _ _ _ _ Hv Hf).
  - by rewrite (main_user_fails _ _ _ _ pid Hv Hf).
  - rewrite (main_uploaded _ _ _ _ pid Hv Hf) by done.
    unfold mbind, run_bind.
    by rewrite update_package_config_fails by (by rewrite <- Hok, <- Hio).
  - rewrite (main_uploaded _ _ _ _ pid Hv Hf) by done.
    unfold mbind, run_bind.
    by rewrite update_package_config_ok by (by rewrite <- Hok, <- Hio).
Qed.

(** [vet_dar.py] exits with status 1 unless it has one argument and both
    participants vet. *)
Lemma vet_tool_exit_status env σ :
  exit_status (VetDarTool.main env σ).1
  = match argv env with
    | [_; package_id] =>
        if decide
             (returncode (grpcurl env 3902 (make_vet_request package_id))
              = 0%Z
              ∧ returncode (grpcurl env 2902 (make_vet_request package_id))
                = 0%Z)
        then 0%Z else 1%Z
    | _ => 1%Z
    end.
Proof.
  unfold VetDarTool.main, VetDarTool.vet_dar_on_participant.
  destruct (argv env) as [|a0 [|package_id [|a2 l]]]; try done.
  unfold subprocess_run, print, emit, sys_exit, mbind, run_bind, mret,
    run_ret; cbn [fst snd files trace].
  destruct (decide (returncode (grpcurl env 3902 _) ≠ 0%Z)) as [H1|H1];
    destruct (decide (returncode (grpcurl env 2902 _) ≠ 0%Z)) as [H2|H2];
    cbn [fst snd files trace andb exit_status];
    [rewrite decide_False by tauto|rewrite decide_False by tauto
    |rewrite decide_False by tauto|rewrite decide_True]; try done.
  split; [by destruct (decide (returncode (grpcurl env 3902
                                 (make_vet_request package_id)) = 0%Z))
         |by destruct (decide (returncode (grpcurl env 2902
                                 (make_vet_request package_id)) = 0%Z))].
Qed.

End ExitStatus.

(** ** The canonical identifier *)

Section CanonicalId.

Lemma ids_printed_spec evs package_id :
  Printed (MsgPackageId package_id) ∈ evs ↔ package_id ∈ ids_printed evs.
Proof.
  unfold ids_printed. rewrite list_elem_of_omap. split.
  - intros Hin. by exists (Printed (MsgPackageId package_id)).
  - intros ([port req|[]] & Hin & Heq); try done. by injection Heq as ->.
Qed.

Lemma ids_printed_app a b : ids_printed (a ++ b) = ids_printed a ++ ids_printed b.
Proof. apply omap_app. Qed.

Lemma ids_printed_version_events env version :
  ids_printed (version_events env version) = [].
Proof.
  unfold version_events. by destruct (argv env) as [|a0 [|a1 [|a2 l]]].
Qed.

Lemma ids_printed_vet_events env package_id port participant_name :
  ids_printed (vet_events env package_id port participant_name) = [].
Proof.
  unfold vet_events, ids_printed. cbn.
  by destruct (decide (returncode _ ≠ 0%Z)).
Qed.

Lemma ids_printed_upload_events env bytes version package_id :
  ids_printed (upload_events env bytes version package_id) = [package_id].
Proof.
  unfold upload_events. rewrite !ids_printed_app, !ids_printed_vet_events.
  done.
Qed.

(** The identifiers a run prints, path by path. *)
Lemma main_ids_printed env σ version bytes :
  resolved_version env = Some version →
  dar_files env (get_dar_path env version) = Some bytes →
  let r1 := grpcurl env PROVIDER_PORT (upload_request_of bytes version) in
  ∃ evs, trace (main env σ).2 = trace σ ++ evs
    ∧ ids_printed evs
      = match package_id_of r1 with
        | Some package_id =>
            if decide (returncode r1 = 0%Z) then [package_id] else []
        | None => []
        end
    ∧ (returncode r1 ≠ 0%Z ∨ package_id_of r1 = None →
       (main env σ).1 = SysExit 1 DistributionError).
Proof.
  intros Hv Hd r1.
  destruct (main_path_total env σ)
    as [Hl|m Hl Hv'|v Hv' Hf|v b Hv' Hf r1' H1|v b Hv' Hf r1' H1 Hid
       |v b pid Hv' Hf r1' r2 H1 Hid H2|v b pid Hv' Hf r1' r2 H1 Hid H2 Hok
       |v b pid Hv' Hf r1' r2 H1 Hid H2 Hok];
    try (unfold resolved_version in Hv;
         destruct (argv env) as [|a0 [|a1 [|a2 l]]]; simpl in Hl; done || lia);
    try congruence;
    assert (v = version) as -> by congruence;
    try congruence;
    assert (b = bytes) as -> by congruence;
    subst r1'; fold r1 in H1; try fold r1 in Hid;
    cbn [fst snd log registry_updated files trace];
    rewrite ?trace_registry_failed; cbn [log trace]; eexists;
    (split; [try reflexivity|]).
  - rewrite !ids_printed_app, ids_printed_version_events. cbn.
    split; [|done]. destruct (package_id_of r1); [|done].
    by rewrite decide_False.
  - rewrite !ids_printed_app, ids_printed_version_events. cbn.
    split; [|done]. by rewrite Hid.
  - rewrite !ids_printed_app, ids_printed_version_events. cbn.
    split; [|done]. rewrite Hid. by rewrite decide_True.
  - rewrite !ids_printed_app, ids_printed_version_events,
      ids_printed_upload_events. cbn.
    rewrite Hid. rewrite decide_True by done.
    split; [done|]. intros [?|?]; congruence.
  - by rewrite <- !app_assoc.
  - rewrite !ids_printed_app, ids_printed_version_events,
      ids_printed_upload_events. cbn.
    rewrite Hid. rewrite decide_True by done.
    split; [done|]. intros [?|?]; congruence.
Qed.

End CanonicalId.

Lemma package_id_of_first r package_id :
  package_id_of r = Some package_id →
  package_id ≠ [] ∧ ∃ ids, stdout_darIds r = Some (package_id :: ids).
Proof.
  unfold package_id_of.
  destruct (stdout_darIds r) as [[|[|c first] ids]|]; try done.
  intros [= <-]. split; [done|by exists ids].
Qed.

Lemma new_versions_current content package_id version :
  new_versions content package_id version !! version = Some package_id.
Proof. apply lookup_insert_eq. Qed.

(** An entry read from the file is a match of the entry pattern inside
    the versions block. *)
Lemma parse_versions_from_match content k v :
  parse_versions content !! k = Some v →
  ∃ block, re_search_versions content = Some block
           ∧ (k, v) ∈ finditer_entries block.
Proof.
  unfold parse_versions.
  destruct (re_search_versions content) as [block|]; [|done].
  intros [Hin|Hemp]%foldl_insert_lookup; [|done]. by exists block.
Qed.

(** ** The text written, line by line *)

Section RegistryText.

#[local] Arguments N.eqb : simpl never.

Lemma unlines_app a b : unlines (a ++ b) = unlines a ++ unlines b.
Proof. unfold unlines. by rewrite map_app, concat_app. Qed.

Lemma entry_block_lines (items : list (pystr * pystr)) :
  text "    " ++ join SEP (map format_entry items) ++ NL
  = unlines (entry_lines items).
Proof.
  induction items as [|e items IH]; [done|].
  destruct items as [|e' items].
  - cbn [map join entry_lines]. unfold unlines, format_entry, quoted.
    cbn [map concat fst snd]. rewrite app_nil_r, <- !app_assoc. reflexivity.
  - change (join SEP (map format_entry (e :: e' :: items)))
      with (format_entry e ++ SEP ++ join SEP (map format_entry (e' :: items))).
    change (entry_lines (e :: e' :: items))
      with ((text "    " ++ quoted e.1 ++ text ": " ++ quoted e.2 ++ text ",")
            :: entry_lines (e' :: items)).
    change (unlines (?l :: ?ls)) with ((l ++ NL) ++ unlines ls).
    rewrite <- IH. unfold format_entry, quoted, SEP. cbn [fst snd].
    rewrite <- !app_assoc. reflexivity.
Qed.

(** What [render_config] makes of a joined list of entries is the
    registry file of these entries. *)
Lemma render_config_registry_file version package_id
    (items : list (pystr * pystr)) :
  render_config version package_id (join SEP (map format_entry items))
  = registry_file version package_id items.
Proof.
  unfold registry_file. rewrite !unlines_app, <- entry_block_lines.
  unfold render_config, lines, unlines, quoted.
  cbn [map concat]. rewrite ?app_nil_r, <- ?app_assoc. reflexivity.
Qed.

Lemma new_content_registry_file content package_id version :
  new_content content package_id version
  = registry_file version package_id
      (sorted_items (new_versions content package_id version)).
Proof. unfold new_content, versions_block. apply render_config_registry_file. Qed.

Lemma elem_of_sorted_items (m : gmap (list N) (list N)) k v :
  (k, v) ∈ sorted_items m ↔ m !! k = Some v.
Proof. rewrite sorted_items_perm. apply elem_of_map_to_list. Qed.


Lemma universal_newlines_id s : CR ∉ s → universal_newlines s = s.
Proof.
  induction s as [|c s IH]; [done|].
  intros [Hc Hs]%not_elem_of_cons. cbn [universal_newlines].
  destruct (N.eqb_spec c 13) as [->|_]; [done|]. by rewrite IH.
Qed.

Lemma universal_newlines_no_cr s : CR ∉ universal_newlines s.
Proof.
  induction s as [s IH] using (induction_ltof1 _ length). unfold ltof in IH.
  destruct s as [|c [|d r]]; cbn [universal_newlines].
  - apply not_elem_of_nil.
  - destruct (N.eqb_spec c 13) as [->|Hc].
    + by intros [?|?%elem_of_nil]%elem_of_cons.
    + by intros [?|?%elem_of_nil]%elem_of_cons.
  - destruct (N.eqb_spec c 13) as [->|Hc].
    + destruct (N.eqb_spec d 10) as [->|Hd].
      * intros [?|Hin]%elem_of_cons; [done|].
        revert Hin. apply IH. simpl. lia.
      * intros [?|Hin]%elem_of_cons; [done|].
        revert Hin. apply (IH (d :: r)). simpl. lia.
    + intros [?|Hin]%elem_of_cons; [done|].
      revert Hin. apply (IH (d :: r)). simpl. lia.
Qed.

Lemma registry_content_no_cr env σ : CR ∉ registry_content env σ.
Proof.
  unfold registry_content. destruct (files σ !! config_path env) as [c|].
  - apply universal_newlines_no_cr.
  - apply (bool_decide_unpack _). by vm_compute.
Qed.

Lemma no_cr_registry_file (cv cp : pystr) (items : list (pystr * pystr)) :
  CR ∉ cv → CR ∉ cp → Forall (λ e, (CR ∉ e.1) ∧ (CR ∉ e.2)) items →
  CR ∉ registry_file cv cp items.
Proof.
  intros Hv Hp Hall. rewrite <- render_config_registry_file.
  rewrite render_config_split. rewrite !not_elem_of_app.
  repeat split; try done;
    try (apply (bool_decide_unpack _); by vm_compute).
  apply join_not_elem; [apply (bool_decide_unpack _); by vm_compute|].
  apply Forall_map. eapply Forall_impl; [exact Hall|].
  intros [k v] [Hk Hx]. unfold format_entry. cbn [fst snd] in *.
  rewrite !not_elem_of_app.
  repeat split; try done; apply (bool_decide_unpack _); by vm_compute.
Qed.

(** The characters of an entry read from a text are characters of the
    text. *)
Lemma parse_versions_chars content k v :
  parse_versions content !! k = Some v → k ⊆ content ∧ v ⊆ content.
Proof.
  intros (block & Hblock & Hin)%parse_versions_from_match.
  apply finditer_fuel_elem in Hin as (_ & _ & _ & _ & Hk & Hv).
  cbn [fst snd] in *.
  assert (block ⊆ content) as Hsub.
  { clear Hk Hv. revert Hblock.
    induction content as [|c content IH]; cbn [re_search_versions].
    - destruct (match_versions_at []) eqn:E; [|done]. by vm_compute in E.
    - destruct (match_versions_at (c :: content)) as [g|] eqn:E.
      + intros [= ->]. unfold match_versions_at in E.
        destruct (strip_prefix _ (c :: content)) as [s1|] eqn:E1; [|done].
        cbn [mbind option_bind] in E.
        destruct (strip_prefix [LBRACE] (skip_spaces s1)) as [s2|] eqn:E2;
          [|done].
        cbn [mbind option_bind] in E.
        destruct (span_not RBRACE s2) as [h s3] eqn:E3.
        destruct (strip_prefix [RBRACE] s3); [|done].
        cbn [mbind option_bind] in E. injection E as <-.
        apply strip_prefix_eq in E1, E2. apply span_not_eq in E3.
        destruct (skip_spaces_suffix s1) as [w Hw].
        rewrite E1, Hw, E2, E3. intros x Hx.
        rewrite !elem_of_app. auto 10.
      + intros H%IH x Hx. right. by apply H. }
  split; intros x Hx; apply Hsub; auto.
Qed.

Lemma new_content_no_cr content package_id version :
  CR ∉ content → CR ∉ version → CR ∉ package_id →
  CR ∉ new_content content package_id version.
Proof.
  intros Hc Hv Hp. rewrite new_content_registry_file.
  apply no_cr_registry_file; [done|done|].
  apply Forall_forall. intros [k x] Hin%elem_of_sorted_items.
  unfold new_versions in Hin. cbn [fst snd].
  destruct (decide (version = k)) as [<-|Hne].
  - rewrite lookup_insert_eq in Hin. by injection Hin as <-.
  - rewrite lookup_insert_ne in Hin by done.
    apply parse_versions_chars in Hin as [Hk Hx].
    split; intros H; [by apply Hc, Hk|by apply Hc, Hx].
Qed.

(** The text an update writes: the registry file, current at the pair
    of the update, of a list of entries that holds this pair, no version
    twice, the versions in descending order, and of the other versions
    what was read. *)
Lemma new_content_items content package_id version :
  ∃ items,
    new_content content package_id version
    = registry_file version package_id items
    ∧ (∀ id, (version, id) ∈ items ↔ id = package_id)
    ∧ NoDup items.*1
    ∧ StronglySorted version_descending items
    ∧ (∀ other id, other ≠ version →
         (other, id) ∈ items ↔ parse_versions content !! other = Some id).
Proof.
  exists (sorted_items (new_versions content package_id version)).
  split; [apply new_content_registry_file|].
  split; [|split; [apply sorted_items_NoDup_keys|split]].
  - intros id. rewrite elem_of_sorted_items. unfold new_versions.
    rewrite lookup_insert_eq. split; [by intros [= ->]|by intros ->].
  - apply descending_of_item_ge;
      [apply sorted_items_sorted|apply sorted_items_NoDup_keys].
  - intros other id Hne. rewrite elem_of_sorted_items. unfold new_versions.
    by rewrite lookup_insert_ne.
Qed.



End RegistryText.

(** * The claims *)

(** C2. When the authoritative participant's upload fails (grpcurl exits
    with a status other than zero, which is also how a transport error
    shows), the run stops with [sys.exit(1)] at the distribution stage: the
    only call made is that one upload, so no participant is asked to vet,
    and no file, the registry included, is changed. *)
Theorem authoritative_upload_failure_aborts env σ version bytes :
  resolved_version env = Some version →
  dar_files env (get_dar_path env version) = Some bytes →
  returncode (grpcurl env PROVIDER_PORT (upload_request_of bytes version))
    ≠ 0%Z →
  ∃ evs, main env σ = (SysExit 1 DistributionError, log σ evs)
    ∧ calls_of evs = [(PROVIDER_PORT, upload_request_of bytes version)]
    ∧ (∀ port r, (port, VetDar r) ∉ calls_of evs)
    ∧ files (main env σ).2 = files σ.
Proof.
  intros Hv Hd H1. eexists. split; [by apply main_provider_fails|].
  rewrite (main_provider_fails _ _ _ _ Hv Hd H1).
  rewrite !calls_of_app, calls_of_version_events. cbn.
  repeat split. apply no_vet_in_uploads.
  repeat constructor; by eexists.
Qed.

Lemma authoritative_upload_failure_witness :
  ∃ evs,
    main env_provider_upload_fails empty_state
    = (SysExit 1 DistributionError, log empty_state evs)
    ∧ calls_of evs
      = [(PROVIDER_PORT, upload_request_of [80; 75; 3; 4] (text "1.0.0"))]
    ∧ (∀ port r, (port, VetDar r) ∉ calls_of evs)
    ∧ files (main env_provider_upload_fails empty_state).2
      = files empty_state.
Proof.
  apply (authoritative_upload_failure_aborts
           env_provider_upload_fails empty_state
           (text "1.0.0") [80; 75; 3; 4]).
  - reflexivity.
  - vm_compute. reflexivity.
  - vm_compute. discriminate.
Defined.

(** C1. When the authoritative upload exits with status zero and the
    secondary participant's upload fails, the run stops with [sys.exit(1)]
    at the distribution stage, no participant is asked to vet, and no
    file, the registry included, is changed. When the authoritative
    response carries an identifier, the calls made are exactly the two
    uploads. *)
Theorem secondary_upload_failure_aborts env σ version bytes :
  resolved_version env = Some version →
  dar_files env (get_dar_path env version) = Some bytes →
  returncode (grpcurl env PROVIDER_PORT (upload_request_of bytes version))
    = 0%Z →
  returncode (grpcurl env USER_PORT (upload_request_of bytes version))
    ≠ 0%Z →
  ∃ evs, main env σ = (SysExit 1 DistributionError, log σ evs)
    ∧ (∀ port r, (port, VetDar r) ∉ calls_of evs)
    ∧ files (main env σ).2 = files σ
    ∧ (is_Some (package_id_of
                  (grpcurl env PROVIDER_PORT
                     (upload_request_of bytes version))) →
       calls_of evs = [ (PROVIDER_PORT, upload_request_of bytes version)
                      ; (USER_PORT, upload_request_of bytes version) ]).
Proof.
  intros Hv Hd H1 H2.
  destruct (package_id_of (grpcurl env PROVIDER_PORT
                             (upload_request_of bytes version)))
    as [package_id|] eqn:Hid.
  - eexists.
    split; [by apply (main_user_fails env σ version bytes package_id)|].
    rewrite (main_user_fails _ _ _ _ package_id Hv Hd H1 Hid H2).
    rewrite !calls_of_app, calls_of_version_events. cbn.
    repeat split. apply no_vet_in_uploads.
    repeat constructor; by eexists.
  - eexists. split; [by apply main_no_id|].
    rewrite (main_no_id _ _ _ _ Hv Hd H1 Hid).
    rewrite !calls_of_app, calls_of_version_events. cbn.
    split; [|split; [done|by intros [? ?]]].
    apply no_vet_in_uploads. repeat constructor; by eexists.
Qed.

Lemma secondary_upload_failure_witness :
  ∃ evs,
    main env_user_upload_fails empty_state
    = (SysExit 1 DistributionError, log empty_state evs)
    ∧ (∀ port r, (port, VetDar r) ∉ calls_of evs)
    ∧ files (main env_user_upload_fails empty_state).2 = files empty_state
    ∧ (is_Some (package_id_of
                  (grpcurl env_user_upload_fails PROVIDER_PORT
                     (upload_request_of [80; 75; 3; 4] (text "1.0.0")))) →
       calls_of evs
       = [ (PROVIDER_PORT, upload_request_of [80; 75; 3; 4] (text "1.0.0"))
         ; (USER_PORT, upload_request_of [80; 75; 3; 4] (text "1.0.0")) ]).
Proof.
  apply (secondary_upload_failure_aborts env_user_upload_fails empty_state
           (text "1.0.0") [80; 75; 3; 4]).
  - reflexivity.
  - vm_compute. reflexivity.
  - vm_compute. reflexivity.
  - vm_compute. discriminate.
Defined.

(** C3. When both uploads succeeded, a participant that fails to vet does
    not stop anything: [vet_dar] calls the provider and then the user
    whatever either answers and always returns; each failure is printed as a
    warning; the run returns normally and has replaced the registry file by
    the registry file current at [version] and [package_id], whose entries
    hold [version] with [package_id] and with nothing else, no version
    twice, and of every other version what the registry held before. The
    registry file is assumed readable and writable. *)
Theorem activation_failure_is_not_fatal env σ version bytes package_id :
  resolved_version env = Some version →
  dar_files env (get_dar_path env version) = Some bytes →
  returncode (grpcurl env PROVIDER_PORT (upload_request_of bytes version))
    = 0%Z →
  package_id_of (grpcurl env PROVIDER_PORT (upload_request_of bytes version))
    = Some package_id →
  returncode (grpcurl env USER_PORT (upload_request_of bytes version))
    = 0%Z →
  registry_io_ok env σ = true →
  (∀ σ0, ∃ evs0,
      vet_dar env package_id σ0 = (Ret (), log σ0 evs0)
      ∧ calls_of evs0 = [ (PROVIDER_PORT, make_vet_request package_id)
                        ; (USER_PORT, make_vet_request package_id) ])
  ∧ ∃ evs items,
      (main env σ).1 = Ret ()
      ∧ trace (main env σ).2 = trace σ ++ evs
      ∧ calls_of evs = [ (PROVIDER_PORT, upload_request_of bytes version)
                       ; (USER_PORT, upload_request_of bytes version)
                       ; (PROVIDER_PORT, make_vet_request package_id)
                       ; (USER_PORT, make_vet_request package_id) ]
      ∧ (∀ port participant_name,
           (port, participant_name)
             ∈ [(PROVIDER_PORT, APP_PROVIDER); (USER_PORT, APP_USER)] →
           let r := grpcurl env port (make_vet_request package_id) in
           returncode r ≠ 0%Z →
           Printed (MsgVetWarning participant_name (stderr r)) ∈ evs)
      ∧ files (main env σ).2
        = <[config_path env := registry_file version package_id items]>
          (files σ)
      ∧ (∀ id, (version, id) ∈ items ↔ id = package_id)
      ∧ NoDup items.*1
      ∧ (∀ other id, other ≠ version →
           (other, id) ∈ items
           ↔ parse_versions (registry_content env σ) !! other = Some id).
Proof.
  intros Hv Hd H1 Hid H2 Hio. split.
  { intros σ0. eexists. split; [apply vet_dar_run|].
    by rewrite !calls_of_app, !calls_of_vet_events. }
  rewrite (main_uploaded env σ version bytes package_id Hv Hd H1 Hid H2).
  unfold mbind, run_bind.
  rewrite update_package_config_ok by done.
  unfold print, emit, registry_updated, log. cbn [fst snd files trace].
  destruct (new_content_items (registry_content env σ) package_id version)
    as (items & E & Hcur & Hnd & _ & Hold).
  unfold registry_content in E at 1. cbn [files] in E.
  eexists. exists items. split; [done|]. split; [by rewrite <- !app_assoc|].
  split; [|split; [|split; [|done]]].
  - rewrite !calls_of_app, calls_of_version_events, calls_of_upload_events.
    done.
  - intros port name Hin Hr.
    rewrite elem_of_app. right. rewrite elem_of_app. left.
    unfold upload_events. rewrite !elem_of_app. right. right.
    apply elem_of_cons in Hin as [[= -> ->]|Hin].
    + left. unfold vet_events. rewrite decide_True by done.
      right. by left.
    + apply list_elem_of_singleton in Hin as [= -> ->].
      right. left. unfold vet_events. rewrite decide_True by done.
      right. by left.
  - by rewrite <- E.
Qed.

Lemma activation_failure_witness :
  (∀ σ0, ∃ evs0,
      vet_dar env_vet_fails (text "abc123") σ0 = (Ret (), log σ0 evs0)
      ∧ calls_of evs0 = [ (PROVIDER_PORT, make_vet_request (text "abc123"))
                        ; (USER_PORT, make_vet_request (text "abc123")) ])
  ∧ ∃ evs items,
      (main env_vet_fails registered_state).1 = Ret ()
      ∧ trace (main env_vet_fails registered_state).2
        = trace registered_state ++ evs
      ∧ calls_of evs
        = [ (PROVIDER_PORT, upload_request_of [80; 75; 3; 4] (text "1.0.0"))
          ; (USER_PORT, upload_request_of [80; 75; 3; 4] (text "1.0.0"))
          ; (PROVIDER_PORT, make_vet_request (text "abc123"))
          ; (USER_PORT, make_vet_request (text "abc123")) ]
      ∧ (∀ port participant_name,
           (port, participant_name)
             ∈ [(PROVIDER_PORT, APP_PROVIDER); (USER_PORT, APP_USER)] →
           let r := grpcurl env_vet_fails port (make_vet_request (text "abc123")) in
           returncode r ≠ 0%Z →
           Printed (MsgVetWarning participant_name (stderr r)) ∈ evs)
      ∧ files (main env_vet_fails registered_state).2
        = <[config_path env_vet_fails :=
              registry_file (text "1.0.0") (text "abc123") items]>
          (files registered_state)
      ∧ (∀ id, (text "1.0.0", id) ∈ items ↔ id = text "abc123")
      ∧ NoDup items.*1
      ∧ (∀ other id, other ≠ text "1.0.0" →
           (other, id) ∈ items
           ↔ parse_versions (registry_content env_vet_fails registered_state)
               !! other = Some id).
Proof.
  apply (activation_failure_is_not_fatal env_vet_fails registered_state
           (text "1.0.0") [80; 75; 3; 4] (text "abc123")).
  - reflexivity.
  - vm_compute. reflexivity.
  - vm_compute. reflexivity.
  - vm_compute. reflexivity.
  - vm_compute. reflexivity.
  - vm_compute. reflexivity.
Defined.

(** C5. A run of [upload_dar.py] that returns normally worked on a version
    [version] whose DAR exists, took [package_id] as the first identifier
    of the authoritative response, and left as the registry file the one
    with [currentVersion: 'version'] and [currentPackageId: 'package_id']
    whose entries hold [version] with [package_id] and with nothing else,
    no version twice, and of every other version what the registry held
    before. Nothing compares [version] with the versions already there. *)
Theorem completed_run_registers_version env σ σ' :
  main env σ = (Ret (), σ') →
  ∃ version bytes package_id ids items,
    resolved_version env = Some version
    ∧ dar_files env (get_dar_path env version) = Some bytes
    ∧ stdout_darIds
        (grpcurl env PROVIDER_PORT (upload_request_of bytes version))
      = Some (package_id :: ids)
    ∧ files σ' !! config_path env
      = Some (registry_file version package_id items)
    ∧ (∀ id, (version, id) ∈ items ↔ id = package_id)
    ∧ NoDup items.*1
    ∧ (∀ other id, other ≠ version →
         (other, id) ∈ items
         ↔ parse_versions (registry_content env σ) !! other = Some id).
Proof.
  intros Hrun. pose proof (main_path_total env σ) as Hpath.
  rewrite Hrun in Hpath. inversion Hpath as [| | | | | | |
    version bytes package_id Hv Hd r1 r2 H1 Hid H2 Hio Hσ].
  destruct (package_id_of_first _ _ Hid) as [_ [ids Hids]].
  set (σ1 := log σ (version_events env version
                    ++ upload_events env bytes version package_id)) in *.
  destruct (new_content_items (registry_content env σ1) package_id version)
    as (items & E & Hcur & Hnd & _ & Hold).
  exists version, bytes, package_id, ids, items.
  split; [done|]. split; [done|]. split; [done|]. split.
  { unfold registry_updated, log. cbn [files trace].
    rewrite lookup_insert_eq. by rewrite <- E. }
  split; [done|]. split; [done|]. exact Hold.
Qed.

Lemma completed_run_witness :
  ∃ version bytes package_id ids items,
    resolved_version env_all_ok = Some version
    ∧ dar_files env_all_ok (get_dar_path env_all_ok version) = Some bytes
    ∧ stdout_darIds
        (grpcurl env_all_ok PROVIDER_PORT (upload_request_of bytes version))
      = Some (package_id :: ids)
    ∧ files (main env_all_ok registered_state).2 !! config_path env_all_ok
      = Some (registry_file version package_id items)
    ∧ (∀ id, (version, id) ∈ items ↔ id = package_id)
    ∧ NoDup items.*1
    ∧ (∀ other id, other ≠ version →
         (other, id) ∈ items
         ↔ parse_versions (registry_content env_all_ok registered_state)
             !! other = Some id).
Proof.
  apply (completed_run_registers_version env_all_ok registered_state
           (main env_all_ok registered_state).2).
  vm_compute. reflexivity.
Defined.

(** Last write wins: the run for 1.0.0 on a registry current at 2.0.0
    leaves 1.0.0 current, below the entry of 2.0.0. *)
Example lower_version_becomes_current :
  files (main env_all_ok registered_state).2 !! config_path env_all_ok
  = Some (registry_file (text "1.0.0") (text "abc123")
            [ (text "2.0.0", text "new222"); (text "1.0.0", text "abc123") ]).
Proof. vm_compute. reflexivity. Qed.

(** C4, as stated, fails on [vet_dar.py]: run with its one argument, the
    tool exits with status 0 when both participants vet and with status 1
    when the user participant alone fails to vet, and that exit is none of
    the fatal errors of the design. *)
Lemma vetting_failure_changes_exit_status :
  exit_status (VetDarTool.main (vet_tool_env 0) empty_state).1 = 0%Z
  ∧ exit_status (VetDarTool.main (vet_tool_env 1) empty_state).1 = 1%Z
  ∧ (VetDarTool.main (vet_tool_env 1) empty_state).1
    = SysExit 1 VettingIncomplete
  ∧ VettingIncomplete ∉ design_fatal.
Proof.
  repeat split; try (vm_compute; reflexivity).
  unfold design_fatal. rewrite !elem_of_cons, elem_of_nil.
  intros [H|[H|[H|[H|[H|H]]]]]; done.
Qed.

(** C4, amended. [upload_dar.py] exits with a status other than zero
    exactly when it ends in one of the fatal errors of the design, and its
    result does not depend on what the participants answer to the vet
    calls. [vet_dar.py] exits with status 1 on a usage error or when a
    participant fails to vet, and with status 0 otherwise. *)
Theorem exit_status_by_entry_point env σ :
  (exit_status (main env σ).1 ≠ 0%Z
   ↔ ∃ kind, abort_of (main env σ).1 = Some kind ∧ kind ∈ design_fatal)
  ∧ (∀ env', same_but_vetting env env' →
       exit_status (main env' σ).1 = exit_status (main env σ).1)
  ∧ exit_status (VetDarTool.main env σ).1
    = match argv env with
      | [_; package_id] =>
          if decide
               (returncode (grpcurl env 3902 (make_vet_request package_id))
                = 0%Z
                ∧ returncode (grpcurl env 2902 (make_vet_request package_id))
                  = 0%Z)
          then 0%Z else 1%Z
      | _ => 1%Z
      end.
Proof.
  split; [|split].
  - destruct (main_exit_status env σ) as [Hret|[Hone Hkind]].
    + rewrite Hret. cbn. split; [done|]. by intros (kind & ? & _).
    + split; [done|]. rewrite Hone. done.
  - intros env' Hsame. by rewrite (main_result_same_but_vetting env env').
  - apply vet_tool_exit_status.
Qed.

(** The answers to the vet calls alone: both participants fail to vet and
    [upload_dar.py] still exits with status zero. *)
Example vet_answers_do_not_change_upload_exit :
  same_but_vetting env_all_ok env_vet_fails
  ∧ exit_status (main env_all_ok empty_state).1 = 0%Z
  ∧ exit_status (main env_vet_fails empty_state).1 = 0%Z.
Proof.
  split; [by repeat split|]. split; vm_compute; reflexivity.
Qed.

(** C6, as stated, fails: the authoritative participant answers the upload
    with status zero and the empty object. The script reports the upload as
    successful, binds no identifier and exits at the distribution stage. *)
Lemma upload_success_without_identifier :
  returncode (grpcurl env_no_identifier PROVIDER_PORT
                (upload_request_of [80; 75; 3; 4] (text "1.0.0"))) = 0%Z
  ∧ Printed (MsgUploadOk APP_PROVIDER)
    ∈ trace (main env_no_identifier empty_state).2
  ∧ ids_printed (trace (main env_no_identifier empty_state).2) = []
  ∧ (main env_no_identifier empty_state).1 = SysExit 1 DistributionError.
Proof.
  repeat split; try (vm_compute; reflexivity).
  vm_compute. do 2 apply list_elem_of_further. apply list_elem_of_here.
Qed.

(** C6, amended. In a run that reaches the upload, an identifier is bound
    exactly when the authoritative upload exits with status zero and its
    response lists a first identifier that is not empty; the identifier is
    then that first element. When the status is zero and there is no such
    identifier, or when the status is not zero, the run exits at the
    distribution stage. *)
Theorem canonical_identifier_defined_iff env σ version bytes :
  resolved_version env = Some version →
  dar_files env (get_dar_path env version) = Some bytes →
  let r1 := grpcurl env PROVIDER_PORT (upload_request_of bytes version) in
  ∃ evs, trace (main env σ).2 = trace σ ++ evs
    ∧ (∀ package_id,
         Printed (MsgPackageId package_id) ∈ evs
         ↔ returncode r1 = 0%Z
           ∧ package_id ≠ []
           ∧ ∃ ids, stdout_darIds r1 = Some (package_id :: ids))
    ∧ (returncode r1 = 0%Z →
       (stdout_darIds r1 = None ∨ stdout_darIds r1 = Some []
        ∨ ∃ ids, stdout_darIds r1 = Some ([] :: ids)) →
       (main env σ).1 = SysExit 1 DistributionError)
    ∧ (returncode r1 ≠ 0%Z → (main env σ).1 = SysExit 1 DistributionError).
Proof.
  intros Hv Hd r1.
  destruct (main_ids_printed env σ version bytes Hv Hd)
    as (evs & Htrace & Hids & Habort).
  fold r1 in Hids, Habort. exists evs. split; [done|].
  split; [|split].
  - intros package_id. rewrite ids_printed_spec, Hids. split.
    + destruct (package_id_of r1) as [pid|] eqn:Hid;
        [|by intros ?%elem_of_nil].
      destruct (decide (returncode r1 = 0%Z)); [|by intros ?%elem_of_nil].
      intros ->%list_elem_of_singleton.
      by destruct (package_id_of_first _ _ Hid).
    + intros (H1 & Hne & ids & Hids').
      unfold package_id_of. rewrite Hids'.
      destruct package_id as [|c first]; [done|].
      rewrite decide_True by done. by left.
  - intros H1 Hnone. apply Habort. right. unfold package_id_of.
    by destruct Hnone as [->|[->|[ids ->]]].
  - intros H1. apply Habort. by left.
Qed.

Lemma canonical_identifier_witness :
  ∃ evs, trace (main env_all_ok empty_state).2 = trace empty_state ++ evs
    ∧ (∀ package_id,
         Printed (MsgPackageId package_id) ∈ evs
         ↔ returncode (grpcurl env_all_ok PROVIDER_PORT
                         (upload_request_of [80; 75; 3; 4] (text "1.0.0")))
           = 0%Z
           ∧ package_id ≠ []
           ∧ ∃ ids, stdout_darIds
                      (grpcurl env_all_ok PROVIDER_PORT
                         (upload_request_of [80; 75; 3; 4] (text "1.0.0")))
                    = Some (package_id :: ids))
    ∧ (returncode (grpcurl env_all_ok PROVIDER_PORT
                     (upload_request_of [80; 75; 3; 4] (text "1.0.0")))
       = 0%Z →
       (stdout_darIds (grpcurl env_all_ok PROVIDER_PORT
                         (upload_request_of [80; 75; 3; 4] (text "1.0.0")))
        = None
        ∨ stdout_darIds (grpcurl env_all_ok PROVIDER_PORT
                           (upload_request_of [80; 75; 3; 4] (text "1.0.0")))
          = Some []
        ∨ ∃ ids, stdout_darIds
                   (grpcurl env_all_ok PROVIDER_PORT
                      (upload_request_of [80; 75; 3; 4] (text "1.0.0")))
                 = Some ([] :: ids)) →
       (main env_all_ok empty_state).1 = SysExit 1 DistributionError)
    ∧ (returncode (grpcurl env_all_ok PROVIDER_PORT
                     (upload_request_of [80; 75; 3; 4] (text "1.0.0")))
       ≠ 0%Z →
       (main env_all_ok empty_state).1 = SysExit 1 DistributionError).
Proof.
  apply (canonical_identifier_defined_iff env_all_ok empty_state
           (text "1.0.0") [80; 75; 3; 4]).
  - reflexivity.
  - vm_compute. reflexivity.
Defined.



(** The update of 1.0.0 in a registry that lists 2.0.0 and 1.0.0 and is
    current at 2.0.0: the entry of 1.0.0 is overwritten, the entry of 2.0.0
    is kept and stays first, and 1.0.0 becomes current. *)
Example upsert_overwrites_and_keeps :
  files (update_package_config env_all_ok (text "new111") (text "1.0.0")
           registered_state).2 !! config_path env_all_ok
  = Some (registry_file (text "1.0.0") (text "new111")
            [ (text "2.0.0", text "new222"); (text "1.0.0", text "new111") ]).
Proof. vm_compute. reflexivity. Qed.

(** C9. Whatever the entries of the dict, the file rendered from its
    versions block is the registry file of a list that holds the items of
    the dict, each once, in descending order of their version strings: the
    lines between the braces of [versions] list the entries in that order,
    top to bottom. *)
Theorem serialized_entries_sorted_descending (m : gmap (list N) (list N))
    (version package_id : pystr) :
  ∃ items,
    render_config version package_id (versions_block m)
    = registry_file version package_id items
    ∧ items ≡ₚ map_to_list m
    ∧ StronglySorted version_descending items.
Proof.
  exists (sorted_items m).
  split; [apply render_config_registry_file|].
  split; [apply sorted_items_perm|].
  apply descending_of_item_ge;
    [apply sorted_items_sorted|apply sorted_items_NoDup_keys].
Qed.

(** C8, as stated, fails: a version with a closing brace is written to the
    registry and cannot be read back. *)
Lemma round_trip_fails_on_brace :
  parse_versions (new_content TEMPLATE (text "abc123") (text "2.0}"))
  ≠ new_versions TEMPLATE (text "abc123") (text "2.0}").
Proof.
  intros H. apply (f_equal (λ m, m !! text "2.0}")) in H.
  vm_compute in H. discriminate.
Qed.

(** C8, amended. When the version and the identifier of the update are
    not empty and hold no quote and no brace, reading the entries of the
    file the update wrote gives back the dict it serialized, whatever the
    file held before. *)
Theorem registry_round_trip (content package_id version : pystr) :
  word version → word package_id →
  parse_versions (new_content content package_id version)
  = new_versions content package_id version.
Proof.
  intros [Hv Bv] [Hp Bp]. unfold new_content.
  apply parse_render; [done|done|]. by apply new_versions_plain.
Qed.

Lemma registry_round_trip_witness :
  parse_versions (new_content TEMPLATE (text "abc123") (text "1.0.0"))
  = new_versions TEMPLATE (text "abc123") (text "1.0.0").
Proof.
  apply (registry_round_trip TEMPLATE (text "abc123") (text "1.0.0")).
  - apply (bool_decide_unpack _). vm_compute. exact I.
  - apply (bool_decide_unpack _). vm_compute. exact I.
Defined.

(** Two updates for the same version, through the file: the second run
    reads what the first wrote and keeps only its own identifier. *)
Lemma upsert_twice_through_file (content first_id later_id version : pystr) :
  word version → word first_id →
  new_versions (new_content content first_id version) later_id version
  = new_versions content later_id version.
Proof.
  intros Hv Hp. unfold new_versions at 1, new_content.
  rewrite (parse_render version first_id) by
    (try apply new_versions_plain; by destruct Hv, Hp).
  unfold new_versions. apply insert_insert_eq.
Qed.



(** * Further properties of the scripts *)

(** ** Paths *)

Section Paths.

Lemma join2_relative path b :
  b ≠ [] → head b ≠ Some SLASH →
  join2 path b = path ++ sep_after path ++ b.
Proof.
  intros Hne Hhead. destruct b as [|c b]; [done|].
  unfold join2, sep_after. simpl in Hhead.
  destruct (N.eqb_spec c SLASH) as [->|_]; [done|].
  destruct (last path) as [e|]; [|done].
  by destruct (e =? SLASH).
Qed.

Lemma join2_prefix path b :
  head b ≠ Some SLASH → path `prefix_of` join2 path b.
Proof.
  intros Hhead. destruct b as [|c b].
  - unfold join2. destruct (last path) as [e|]; [|done].
    destruct (e =? SLASH); [done|]. by apply prefix_app_r.
  - rewrite join2_relative by done. by eexists.
Qed.

Lemma dar_dist_path_last env : last (dar_dist_path env) = Some 116.
Proof.
  unfold dar_dist_path, os_path_join. cbn [foldl].
  rewrite (join2_relative _ (text "dist")) by (by vm_compute).
  change (text "dist") with ([100; 105; 115] ++ [116]).
  rewrite !app_assoc. apply last_snoc.
Qed.

(** The file [get_dar_path] names: [minimal-token-<version>.dar] in the
    dist directory. *)
Lemma get_dar_path_shape env version :
  get_dar_path env version
  = dar_dist_path env ++ text "/minimal-token-" ++ version ++ text ".dar".
Proof.
  unfold get_dar_path. fold (dar_dist_path env).
  unfold os_path_join. cbn [foldl].
  rewrite join2_relative; [|done|done].
  unfold sep_after. by rewrite dar_dist_path_last.
Qed.

End Paths.

(** X1. Two versions never share a DAR file: in a given checkout
    different versions get different artifact paths, whatever characters
    the versions hold. *)
Theorem get_dar_path_injective env (v1 v2 : pystr) :
  v1 ≠ v2 → get_dar_path env v1 ≠ get_dar_path env v2.
Proof.
  intros Hne. rewrite !get_dar_path_shape.
  intros H%app_inv_head%app_inv_head. by apply app_inv_tail in H.
Qed.

Lemma get_dar_path_injective_witness :
  get_dar_path env_all_ok (text "1.0.0")
  ≠ get_dar_path env_all_ok (text "0.9.0").
Proof.
  apply (get_dar_path_injective env_all_ok (text "1.0.0") (text "0.9.0")).
  vm_compute. discriminate.
Defined.

(** X2. The registry file and every DAR file the scripts name lie under
    the project root: [PROJECT_ROOT] is a prefix of both paths. *)
Theorem paths_under_project_root env (version : pystr) :
  PROJECT_ROOT env `prefix_of` config_path env
  ∧ PROJECT_ROOT env `prefix_of` get_dar_path env version.
Proof.
  split.
  - unfold config_path, os_path_join. cbn [foldl].
    repeat (etrans; [|apply join2_prefix; by vm_compute]). done.
  - rewrite get_dar_path_shape. apply prefix_app_r.
    unfold dar_dist_path, DAML_PROJECT_PATH, os_path_join. cbn [foldl].
    repeat (etrans; [|apply join2_prefix; by vm_compute]). done.
Qed.

(** ** The version stage *)

(** X3. [read_version_from_daml_yaml] returns a version exactly when
    [daml.yaml] loads and holds a non-empty one, and then changes nothing;
    in every other case it exits with status 1 after one message. It never
    calls a participant and never changes a file. *)
Theorem read_version_outcome env σ :
  (∀ version,
     (read_version_from_daml_yaml env σ).1 = Ret version
     ↔ daml_yaml env = Some (YamlDoc (Some version)) ∧ version ≠ [])
  ∧ ((∃ version, read_version_from_daml_yaml env σ = (Ret version, σ))
     ∨ ∃ m, read_version_from_daml_yaml env σ
            = (SysExit 1 ConfigError, log σ [Printed m])).
Proof.
  unfold read_version_from_daml_yaml.
  destruct (daml_yaml env) as [[|[[|c v]|]]|]; (split; [intros version; split|]);
    try (intros [[=] Hne]; done); try (intros [=]; done);
    try (right; by eexists); cbn.
  - intros [= <-]. done.
  - intros [[= <-] _]. done.
  - left. by eexists.
Qed.

(** X4. An explicit version argument overrides [daml.yaml]: with exactly
    one argument the run does not depend on what [daml.yaml] holds, or on
    whether it exists. *)
Theorem explicit_version_ignores_daml_yaml env σ yaml :
  length (argv env) = 2%nat →
  main (with_daml_yaml env yaml) σ = main env σ.
Proof.
  intros Hlen. destruct (argv env) as [|a0 [|version [|a2 l]]] eqn:Hargv;
    try done.
  unfold main, with_daml_yaml. cbn [argv]. rewrite Hargv. done.
Qed.

Lemma explicit_version_ignores_daml_yaml_witness :
  main (with_daml_yaml env_all_ok (Some YamlError)) empty_state
  = main env_all_ok empty_state.
Proof.
  apply (explicit_version_ignores_daml_yaml env_all_ok empty_state
           (Some YamlError)).
  reflexivity.
Defined.

(** ** What a run of [upload_dar.py] never does *)

Lemma files_registry_failed env σ package_id version :
  files (registry_failed env σ package_id version) = files σ
  ∨ ∃ n items,
      registry_write_cut env = Some n
      ∧ files (registry_failed env σ package_id version)
        = <[config_path env := take n (registry_file version package_id items)]>
          (files σ).
Proof.
  unfold registry_failed.
  destruct (registry_read_error env && _); [by left|].
  destruct (registry_write_error env); [by left|].
  destruct (registry_write_cut env) as [n|]; [|by left].
  right. exists n.
  destruct (new_content_items (registry_content env σ) package_id version)
    as (items & E & _).
  exists items. by rewrite E.
Qed.



(** A write that fails before its first character leaves the registry
    empty: the entries it held are lost. *)
Example cut_write_empties_registry :
  (main (env_write_cut 0) registered_state).1 = Uncaught RegistryWriteError
  ∧ files (main (env_write_cut 0) registered_state).2
      !! config_path (env_write_cut 0) = Some [].
Proof. split; vm_compute; reflexivity. Qed.

(** X6. The only file a run of [upload_dar.py] can change is the registry
    [src/config/packageConfig.js]. *)
Theorem main_writes_only_the_registry env σ (path : pystr) :
  path ≠ config_path env →
  files (main env σ).2 !! path = files σ !! path.
Proof.
  intros Hne. destruct (main_path_total env σ)
    as [| | | | | |v b pid Hv Hf r1 r2 H1 Hid H2 Hok|];
    cbn [fst snd]; try done.
  - destruct (files_registry_failed env
                (log σ (version_events env v ++ upload_events env b v pid))
                pid v) as [E|(n & items & Hc & E)]; rewrite E; [done|].
    cbn [log files]. by rewrite lookup_insert_ne.
  - unfold registry_updated, log. cbn [files].
    by rewrite lookup_insert_ne.
Qed.

Lemma main_writes_only_the_registry_witness :
  files (main env_all_ok empty_state).2 !! text "/repo/daml/minimal-token/daml.yaml"
  = files empty_state !! text "/repo/daml/minimal-token/daml.yaml".
Proof.
  apply (main_writes_only_the_registry env_all_ok empty_state
           (text "/repo/daml/minimal-token/daml.yaml")).
  vm_compute. discriminate.
Defined.

(** X7. The calls of every run of [upload_dar.py] are an initial part of:
    upload to the provider, upload to the user, vet on the provider, vet on
    the user. No call is made unless the version is resolved and its DAR
    exists; and a vet call is made only after both uploads exited with
    status zero and the provider gave an identifier, in which case both
    participants are asked to vet. *)
Theorem calls_follow_the_protocol env σ :
  ∃ evs bytes version package_id,
    trace (main env σ).2 = trace σ ++ evs
    ∧ calls_of evs `prefix_of` all_calls bytes version package_id
    ∧ (calls_of evs ≠ [] →
       resolved_version env = Some version
       ∧ dar_files env (get_dar_path env version) = Some bytes)
    ∧ ((2 < length (calls_of evs))%nat →
       calls_of evs = all_calls bytes version package_id
       ∧ returncode (grpcurl env PROVIDER_PORT
                       (upload_request_of bytes version)) = 0%Z
       ∧ package_id_of (grpcurl env PROVIDER_PORT
                          (upload_request_of bytes version))
         = Some package_id
       ∧ returncode (grpcurl env USER_PORT
                       (upload_request_of bytes version)) = 0%Z).
Proof.
  destruct (main_path_total env σ)
    as [Hl|m Hl Hv|v Hv Hf|v b Hv Hf r1 H1|v b Hv Hf r1 H1 Hid
       |v b pid Hv Hf r1 r2 H1 Hid H2|v b pid Hv Hf r1 r2 H1 Hid H2 Hok
       |v b pid Hv Hf r1 r2 H1 Hid H2 Hok]; cbn [fst snd].
  - exists [Printed MsgUsage], [], [], []. cbn.
    repeat split; try done; try lia. by eexists.
  - exists [Printed m], [], [], []. cbn.
    repeat split; try done; try lia. by eexists.
  - eexists _, [], v, []. split; [reflexivity|].
    rewrite !calls_of_app, calls_of_version_events. cbn.
    repeat split; try done; try lia. by eexists.
  - eexists _, b, v, []. split; [reflexivity|].
    rewrite !calls_of_app, calls_of_version_events. cbn.
    repeat split; try done; try lia. by eexists.
  - eexists _, b, v, []. split; [reflexivity|].
    rewrite !calls_of_app, calls_of_version_events. cbn.
    repeat split; try done; try lia. by eexists.
  - eexists _, b, v, pid. split; [reflexivity|].
    rewrite !calls_of_app, calls_of_version_events. cbn.
    repeat split; try done; try lia. by eexists.
  - eexists _, b, v, pid.
    split; [rewrite trace_registry_failed; reflexivity|].
    rewrite !calls_of_app, calls_of_version_events,
      calls_of_upload_events. cbn.
    repeat split; try done.
  - eexists _, b, v, pid.
    split; [unfold registry_updated, log; cbn [trace];
            rewrite <- !app_assoc; reflexivity|].
    rewrite !calls_of_app, calls_of_version_events,
      calls_of_upload_events. cbn.
    repeat split; try done.
Qed.

(** ** What the run reads of the participants' answers *)

Section Answers.

Lemma vet_events_same env env' package_id port participant_name :
  returncode (grpcurl env' port (make_vet_request package_id))
  = returncode (grpcurl env port (make_vet_request package_id)) →
  stderr (grpcurl env' port (make_vet_request package_id))
  = stderr (grpcurl env port (make_vet_request package_id)) →
  vet_events env' package_id port participant_name
  = vet_events env package_id port participant_name.
Proof. unfold vet_events. by intros -> ->. Qed.

End Answers.

(** X8. Of what the participants answer, a run of [upload_dar.py] reads
    the exit status and the error output of each call and the identifier
    list of the provider's upload only: participants that agree on these
    give the same run, result and final state. In particular the
    identifiers the user participant returns are ignored. *)
Theorem only_provider_identifiers_are_read env σ
    (answer : Z → request → CompletedProcess) :
  (∀ port req, returncode (answer port req)
               = returncode (grpcurl env port req)) →
  (∀ port req, stderr (answer port req) = stderr (grpcurl env port req)) →
  (∀ r, stdout_darIds (answer PROVIDER_PORT (UploadDar r))
        = stdout_darIds (grpcurl env PROVIDER_PORT (UploadDar r))) →
  main (with_grpcurl env answer) σ = main env σ.
Proof.
  intros Hrc Herr Hids. set (env' := with_grpcurl env answer).
  assert (∀ bytes v,
            package_id_of (grpcurl env' PROVIDER_PORT
                             (upload_request_of bytes v))
            = package_id_of (grpcurl env PROVIDER_PORT
                               (upload_request_of bytes v))) as Hpid.
  { intros. unfold package_id_of, env'. cbn [grpcurl with_grpcurl].
    unfold upload_request_of, make_upload_request. by rewrite Hids. }
  assert (∀ pid port name,
            vet_events env' pid port name = vet_events env pid port name)
    as Hvet.
  { intros. apply vet_events_same; [apply Hrc|apply Herr]. }
  assert (∀ b v pid, upload_events env' b v pid = upload_events env b v pid)
    as Hup.
  { intros. unfold upload_events. by rewrite !Hvet. }
  destruct (decide (2 < length (argv env))%nat) as [Ha|Ha].
  { by rewrite !main_usage. }
  destruct (resolved_version env) as [v|] eqn:Hv; last first.
  { unfold main, read_version_from_daml_yaml, resolved_version in *.
    cbn [argv daml_yaml with_grpcurl env'].
    destruct (argv env) as [|a0 [|a1 [|a2 l]]]; try done;
      destruct (daml_yaml env) as [[|[[|c w]|]]|]; try done. }
  destruct (dar_files env (get_dar_path env v)) as [b|] eqn:Hf; last first.
  { rewrite (main_resolved env' σ v Hv), (main_resolved env σ v Hv).
    unfold mbind at 1 3, run_bind.
    by rewrite !upload_dar_missing. }
  set (r1 := grpcurl env PROVIDER_PORT (upload_request_of b v)).
  destruct (decide (returncode r1 = 0%Z)) as [H1|H1]; last first.
  { rewrite (main_provider_fails env' σ v b Hv Hf) by (by rewrite Hrc).
    rewrite (main_provider_fails env σ v b Hv Hf) by done.
    by rewrite Herr. }
  destruct (package_id_of r1) as [pid|] eqn:Hid; last first.
  { rewrite (main_no_id env' σ v b Hv Hf);
      [|by rewrite Hrc|by rewrite Hpid].
    by rewrite (main_no_id env σ v b Hv Hf). }
  set (r2 := grpcurl env USER_PORT (upload_request_of b v)).
  destruct (decide (returncode r2 = 0%Z)) as [H2|H2]; last first.
  { rewrite (main_user_fails env' σ v b pid Hv Hf);
      [|by rewrite Hrc|by rewrite Hpid|by rewrite Hrc].
    rewrite (main_user_fails env σ v b pid Hv Hf) by done.
    by rewrite Herr. }
  rewrite (main_uploaded env' σ v b pid Hv Hf);
    [|by rewrite Hrc|by rewrite Hpid|by rewrite Hrc].
  rewrite (main_uploaded env σ v b pid Hv Hf) by done.
  rewrite Hup. unfold mbind, run_bind.
  destruct (registry_io_ok env σ) eqn:Hio.
  - rewrite !update_package_config_ok by done. done.
  - rewrite !update_package_config_fails by done. done.
Qed.

Lemma only_provider_identifiers_witness :
  main (with_grpcurl env_all_ok
          (λ port req,
             if decide (port = USER_PORT)
             then {| returncode := 0; stdout_darIds := Some [text "zzz"];
                     stderr := text "rpc error" |}
             else grpcurl env_all_ok port req)) empty_state
  = main env_all_ok empty_state.
Proof.
  apply (only_provider_identifiers_are_read env_all_ok empty_state).
  - intros port req. cbn beta.
    destruct (decide (port = USER_PORT)) as [->|]; [by destruct req|done].
  - intros port req. cbn beta.
    destruct (decide (port = USER_PORT)) as [->|]; [by destruct req|done].
  - intros r. reflexivity.
Defined.

(** ** The stand-alone vetting tool *)

Section VetTool.

Lemma vet_dar_on_participant_run env package_id port participant_name σ :
  VetDarTool.vet_dar_on_participant env package_id port participant_name σ
  = (Ret (bool_decide
            (returncode (grpcurl env port (make_vet_request package_id))
             = 0%Z)),
     log σ (vet_events env package_id port participant_name)).
Proof.
  unfold VetDarTool.vet_dar_on_participant, vet_events.
  unfold subprocess_run, print, emit, mbind, run_bind, mret, run_ret.
  cbn [fst snd files trace].
  destruct (decide (returncode _ ≠ 0%Z)) as [H|H]; cbn.
  - rewrite bool_decide_eq_false_2 by done.
    unfold log; cbn; by rewrite <- !app_assoc.
  - rewrite bool_decide_eq_true_2 by (by destruct (decide (returncode
      (grpcurl env port (make_vet_request package_id)) = 0%Z))).
    unfold log; cbn; by rewrite <- !app_assoc.
Qed.

Lemma vet_tool_run env σ (a0 package_id : pystr) :
  argv env = [a0; package_id] →
  let ok :=
    bool_decide (returncode (grpcurl env PROVIDER_PORT
                               (make_vet_request package_id)) = 0%Z)
    && bool_decide (returncode (grpcurl env USER_PORT
                                  (make_vet_request package_id)) = 0%Z) in
  VetDarTool.main env σ
  = (if ok then Ret () else SysExit 1 VettingIncomplete,
     log σ ((vet_events env package_id PROVIDER_PORT APP_PROVIDER
             ++ vet_events env package_id USER_PORT APP_USER)
            ++ [Printed (if ok then MsgVetAllOk else MsgVetWithWarnings)])).
Proof.
  intros Hargv ok. unfold VetDarTool.main. rewrite Hargv.
  unfold mbind at 1, run_bind. rewrite vet_dar_on_participant_run.
  unfold mbind at 1, run_bind. rewrite vet_dar_on_participant_run.
  rewrite log_log. fold PROVIDER_PORT USER_PORT. fold ok.
  destruct ok; unfold print, emit, sys_exit, mbind, run_bind;
    cbn [fst snd files trace]; unfold log; cbn [files trace];
    by rewrite <- !app_assoc.
Qed.

End VetTool.

(** X9. The two vetting entry points make the same calls. Given one
    argument, [vet_dar.py] makes the two [VetDar] calls that [vet_dar] of
    [upload_dar.py] makes for that identifier, with the same request and in
    the same order: the provider is asked first and the user is asked
    whatever the provider answered. [vet_dar] always returns; the tool
    returns when both calls exited with status zero and exits with status
    1 otherwise. *)
Theorem vetting_entry_points_agree env σ (a0 package_id : pystr) :
  argv env = [a0; package_id] →
  ∃ tool_evs evs,
    (VetDarTool.main env σ).2 = log σ tool_evs
    ∧ vet_dar env package_id σ = (Ret (), log σ evs)
    ∧ calls_of tool_evs = [ (PROVIDER_PORT, make_vet_request package_id)
                          ; (USER_PORT, make_vet_request package_id) ]
    ∧ calls_of evs = calls_of tool_evs
    ∧ ((VetDarTool.main env σ).1 = Ret ()
       ↔ ∀ port, port ∈ [PROVIDER_PORT; USER_PORT] →
           returncode (grpcurl env port (make_vet_request package_id))
           = 0%Z)
    ∧ ((VetDarTool.main env σ).1 ≠ Ret () →
       (VetDarTool.main env σ).1 = SysExit 1 VettingIncomplete).
Proof.
  intros Hargv. rewrite (vet_tool_run env σ a0 package_id Hargv).
  rewrite vet_dar_run. cbn [fst snd]. eexists _, _.
  split; [reflexivity|]. split; [reflexivity|].
  split; [by rewrite !calls_of_app, !calls_of_vet_events|].
  split; [by rewrite !calls_of_app, !calls_of_vet_events|].
  destruct (decide (returncode (grpcurl env PROVIDER_PORT
                                  (make_vet_request package_id)) = 0%Z))
    as [H1|H1];
    destruct (decide (returncode (grpcurl env USER_PORT
                                    (make_vet_request package_id)) = 0%Z))
    as [H2|H2];
    rewrite ?(bool_decide_eq_true_2 _ H1), ?(bool_decide_eq_false_2 _ H1),
      ?(bool_decide_eq_true_2 _ H2), ?(bool_decide_eq_false_2 _ H2);
    cbn [andb]; (split; [|done]).
  - split; [|done].
    intros _ port [->|[->|[]%elem_of_nil]%elem_of_cons]%elem_of_cons; done.
  - split; [done|]. intros H. exfalso. apply H2, H. right. by left.
  - split; [done|]. intros H. exfalso. apply H1, H. by left.
  - split; [done|]. intros H. exfalso. apply H1, H. by left.
Qed.

Lemma vetting_entry_points_agree_witness :
  ∃ tool_evs evs,
    (VetDarTool.main (vet_tool_env 1) empty_state).2 = log empty_state tool_evs
    ∧ vet_dar (vet_tool_env 1) (text "abc123") empty_state
      = (Ret (), log empty_state evs)
    ∧ calls_of tool_evs
      = [ (PROVIDER_PORT, make_vet_request (text "abc123"))
        ; (USER_PORT, make_vet_request (text "abc123")) ]
    ∧ calls_of evs = calls_of tool_evs
    ∧ ((VetDarTool.main (vet_tool_env 1) empty_state).1 = Ret ()
       ↔ ∀ port, port ∈ [PROVIDER_PORT; USER_PORT] →
           returncode (grpcurl (vet_tool_env 1) port
                         (make_vet_request (text "abc123")))
           = 0%Z)
    ∧ ((VetDarTool.main (vet_tool_env 1) empty_state).1 ≠ Ret () →
       (VetDarTool.main (vet_tool_env 1) empty_state).1
       = SysExit 1 VettingIncomplete).
Proof.
  apply (vetting_entry_points_agree (vet_tool_env 1) empty_state
           (text "vet_dar.py") (text "abc123")).
  reflexivity.
Defined.

(** X10. [vet_dar.py] never changes a file, and unless it is given exactly
    one argument it calls no participant and exits with status 1. *)
Theorem vet_tool_is_read_only env σ :
  files (VetDarTool.main env σ).2 = files σ
  ∧ (length (argv env) ≠ 2%nat →
     VetDarTool.main env σ
     = (SysExit 1 UsageError, log σ [Printed MsgUsage])).
Proof.
  split.
  - destruct (argv env) as [|a0 [|package_id [|a2 l]]] eqn:Hargv;
      try (unfold VetDarTool.main; rewrite Hargv; reflexivity).
    by rewrite (vet_tool_run env σ a0 package_id Hargv).
  - intros Hlen. unfold VetDarTool.main.
    by destruct (argv env) as [|a0 [|package_id [|a2 l]]].
Qed.

(** ** The registry across runs *)

Section RegistryRuns.

Lemma parse_new_content (content package_id version : pystr) :
  word version → word package_id →
  parse_versions (new_content content package_id version)
  = <[version := package_id]> (parse_versions content).
Proof.
  intros [Hv Bv] [Hp Bp]. unfold new_content.
  rewrite parse_render; [done|done|done|]. by apply new_versions_plain.
Qed.

Lemma sorted_items_singleton (k v : pystr) :
  sorted_items ({[ k := v ]} : gmap (list N) (list N)) = [(k, v)].
Proof. unfold sorted_items. by rewrite map_to_list_singleton. Qed.

Lemma foldl_insert_last_value (l : list (pystr * pystr))
    (acc : gmap (list N) (list N)) k :
  foldl (λ versions m, <[m.1 := m.2]> versions) acc l !! k
  = match last_value k l with
    | Some v => Some v
    | None => acc !! k
    end.
Proof.
  revert acc; induction l as [|[k' v'] l IH]; intros acc; [done|].
  cbn [foldl last_value fst snd]. rewrite IH.
  destruct (last_value k l); [done|].
  destruct (decide (k' = k)) as [->|Hne].
  - by rewrite lookup_insert_eq.
  - by rewrite lookup_insert_ne.
Qed.

(** A run that wrote the registry left a file the next run reads as it
    was written. *)
Lemma reread_updated env σ (package_id version : pystr) :
  CR ∉ version → CR ∉ package_id →
  registry_content env (registry_updated env σ package_id version)
  = new_content (registry_content env σ) package_id version.
Proof.
  intros Cv Cp. unfold registry_content at 1, registry_updated.
  cbn [files]. rewrite lookup_insert_eq.
  cbn [fmap option_fmap option_map default].
  apply universal_newlines_id, new_content_no_cr; try done.
  apply registry_content_no_cr.
Qed.

Lemma registry_io_ok_again env σ (package_id version : pystr) :
  registry_io_ok env σ = true → registry_read_error env = false →
  registry_io_ok env (registry_updated env σ package_id version) = true.
Proof.
  unfold registry_io_ok. intros H Hr. rewrite Hr in *. cbn [negb orb] in *.
  rewrite andb_true_r in *. exact H.
Qed.

Lemma files_updated_twice env σ (p1 v1 p2 v2 : pystr) :
  files (registry_updated env (registry_updated env σ p1 v1) p2 v2)
  = <[config_path env :=
        new_content (registry_content env (registry_updated env σ p1 v1))
          p2 v2]> (files σ).
Proof.
  unfold registry_updated at 1. cbn [files].
  unfold registry_updated at 2. cbn [files]. apply insert_insert_eq.
Qed.

End RegistryRuns.

(** X11. When the registry can be read and written, the update run twice
    for the same version and identifier, the second run reading in text
    mode what the first wrote, leaves the registry file as the first run
    left it: the registry file current at that pair, with the pair among
    its entries. Both runs return. The version and the identifier are
    non-empty and hold no quote, no brace and no carriage return. *)
Theorem update_is_idempotent env σ (package_id version : pystr) :
  clean version → clean package_id →
  registry_io_ok env σ = true → registry_read_error env = false →
  ∃ items σ1 σ2,
    update_package_config env package_id version σ = (Ret (), σ1)
    ∧ update_package_config env package_id version σ1 = (Ret (), σ2)
    ∧ files σ1
      = <[config_path env := registry_file version package_id items]> (files σ)
    ∧ files σ2 = files σ1
    ∧ (version, package_id) ∈ items.
Proof.
  intros [Hv Cv] [Hp Cp] Hio Hr.
  exists (sorted_items (new_versions (registry_content env σ)
                          package_id version)).
  eexists _, _.
  split; [by apply update_package_config_ok|].
  split; [by apply update_package_config_ok, registry_io_ok_again|].
  split; [|split].
  - unfold registry_updated. cbn [files].
    by rewrite new_content_registry_file.
  - rewrite files_updated_twice, reread_updated by done.
    unfold new_content at 1, new_versions at 1.
    rewrite parse_new_content by done. rewrite insert_insert_eq.
    reflexivity.
  - apply elem_of_sorted_items, new_versions_current.
Qed.

Lemma update_is_idempotent_witness :
  ∃ items σ1 σ2,
    update_package_config env_all_ok (text "abc123") (text "1.0.0")
      registered_state = (Ret (), σ1)
    ∧ update_package_config env_all_ok (text "abc123") (text "1.0.0") σ1
      = (Ret (), σ2)
    ∧ files σ1
      = <[config_path env_all_ok :=
            registry_file (text "1.0.0") (text "abc123") items]>
        (files registered_state)
    ∧ files σ2 = files σ1
    ∧ (text "1.0.0", text "abc123") ∈ items.
Proof.
  apply (update_is_idempotent env_all_ok registered_state
           (text "abc123") (text "1.0.0")).
  - apply (bool_decide_unpack _). vm_compute. exact I.
  - apply (bool_decide_unpack _). vm_compute. exact I.
  - vm_compute. reflexivity.
  - reflexivity.
Defined.

(** X12. Two updates through the file compose as two upserts. When the
    registry can be read and written, a run for [(v1, p1)] followed by a
    run for [(v2, p2)], which reads in text mode the file the first wrote,
    leaves the registry file current at [(v2, p2)] whose entries are the
    entries read from the original file with [v1] set to [p1] and then
    [v2] set to [p2], in descending order of the versions. For different
    versions the two runs in the other order leave the same entries, with
    [(v1, p1)] current. Versions and identifiers are non-empty and hold no
    quote, no brace and no carriage return. *)
Theorem updates_compose env σ (p1 v1 p2 v2 : pystr) :
  clean v1 → clean p1 → clean v2 → clean p2 →
  registry_io_ok env σ = true → registry_read_error env = false →
  ∃ items,
    files (update_package_config env p2 v2
             (update_package_config env p1 v1 σ).2).2
    = <[config_path env := registry_file v2 p2 items]> (files σ)
    ∧ (∀ k x,
         (k, x) ∈ items
         ↔ <[v2 := p2]> (<[v1 := p1]>
                           (parse_versions (registry_content env σ))) !! k
           = Some x)
    ∧ StronglySorted version_descending items
    ∧ (v1 ≠ v2 →
       files (update_package_config env p1 v1
                (update_package_config env p2 v2 σ).2).2
       = <[config_path env := registry_file v1 p1 items]> (files σ)).
Proof.
  intros [Hv1 Cv1] [Hp1 Cp1] [Hv2 Cv2] [Hp2 Cp2] Hio Hr.
  exists (sorted_items
            (<[v2 := p2]> (<[v1 := p1]>
                             (parse_versions (registry_content env σ))))).
  assert (∀ pa va pb vb, word va → word pa → CR ∉ va → CR ∉ pa →
            files (update_package_config env pb vb
                     (update_package_config env pa va σ).2).2
            = <[config_path env :=
                  registry_file vb pb
                    (sorted_items
                       (<[vb := pb]>
                          (<[va := pa]>
                             (parse_versions (registry_content env σ)))))]>
              (files σ)) as Htwo.
  { intros pa va pb vb Hva Hpa Cva Cpa.
    rewrite (update_package_config_ok env pa va σ Hio). cbn [snd].
    rewrite update_package_config_ok by (by apply registry_io_ok_again).
    cbn [snd]. rewrite files_updated_twice, reread_updated by done.
    rewrite new_content_registry_file. unfold new_versions at 1.
    by rewrite parse_new_content. }
  split; [by apply Htwo|]. split; [|split].
  - intros k x. apply elem_of_sorted_items.
  - apply descending_of_item_ge;
      [apply sorted_items_sorted|apply sorted_items_NoDup_keys].
  - intros Hne. rewrite Htwo by done. by rewrite insert_insert_ne.
Qed.

Lemma updates_compose_witness :
  ∃ items,
    files (update_package_config env_all_ok (text "old999") (text "0.9.0")
             (update_package_config env_all_ok (text "abc123") (text "1.0.0")
                empty_state).2).2
    = <[config_path env_all_ok :=
          registry_file (text "0.9.0") (text "old999") items]>
      (files empty_state)
    ∧ (∀ k x,
         (k, x) ∈ items
         ↔ <[text "0.9.0" := text "old999"]>
             (<[text "1.0.0" := text "abc123"]>
                (parse_versions (registry_content env_all_ok empty_state)))
             !! k
           = Some x)
    ∧ StronglySorted version_descending items
    ∧ (text "1.0.0" ≠ text "0.9.0" →
       files (update_package_config env_all_ok (text "abc123") (text "1.0.0")
                (update_package_config env_all_ok (text "old999")
                   (text "0.9.0") empty_state).2).2
       = <[config_path env_all_ok :=
             registry_file (text "1.0.0") (text "abc123") items]>
         (files empty_state)).
Proof.
  apply (updates_compose env_all_ok empty_state (text "abc123") (text "1.0.0")
           (text "old999") (text "0.9.0")).
  - apply (bool_decide_unpack _). vm_compute. exact I.
  - apply (bool_decide_unpack _). vm_compute. exact I.
  - apply (bool_decide_unpack _). vm_compute. exact I.
  - apply (bool_decide_unpack _). vm_compute. exact I.
  - vm_compute. reflexivity.
  - reflexivity.
Defined.

(** X13. When the registry file does not exist and can be written, the
    update creates it: the registry file with the given version and
    identifier as the current ones and as its one entry, whatever the
    version and the identifier are. *)
Theorem first_update_creates_registry env σ (package_id version : pystr) :
  files σ !! config_path env = None →
  registry_write_error env = false →
  registry_write_cut env = None →
  update_package_config env package_id version σ
  = (Ret (),
     {| files := <[config_path env :=
                     registry_file version package_id
                       [(version, package_id)]]> (files σ);
        trace := trace σ ++ [Printed (MsgConfigUpdated version package_id)] |}).
Proof.
  intros Hnone Hw Hc. rewrite update_package_config_ok.
  - unfold registry_updated, registry_content. rewrite Hnone.
    cbn [fmap option_fmap option_map default].
    rewrite new_content_registry_file. unfold new_versions.
    by rewrite parse_template, insert_empty, sorted_items_singleton.
  - unfold registry_io_ok. rewrite Hw, Hc, Hnone. cbn [negb andb].
    rewrite !bool_decide_eq_true_2 by done. apply orb_true_r.
Qed.

Lemma first_update_creates_registry_witness :
  update_package_config env_all_ok (text "abc123") (text "1.0.0") empty_state
  = (Ret (),
     {| files := <[config_path env_all_ok :=
                     registry_file (text "1.0.0") (text "abc123")
                       [(text "1.0.0", text "abc123")]]>
                 (files empty_state);
        trace := trace empty_state
                 ++ [Printed (MsgConfigUpdated (text "1.0.0")
                                (text "abc123"))] |}).
Proof.
  apply (first_update_creates_registry env_all_ok empty_state
           (text "abc123") (text "1.0.0")).
  - vm_compute. reflexivity.
  - reflexivity.
  - reflexivity.
Defined.

(** X14. When the versions block of an existing file lists a version more
    than once, the entry read for it is the last one in the file; a version
    the block does not list has no entry. *)
Theorem last_duplicate_wins (content block k : pystr) :
  re_search_versions content = Some block →
  parse_versions content !! k = last_value k (finditer_entries block).
Proof.
  intros Hblock. unfold parse_versions. rewrite Hblock.
  rewrite foldl_insert_last_value. by destruct (last_value _ _).
Qed.

Lemma last_duplicate_wins_witness :
  parse_versions duplicated_registry !! text "1.0.0"
  = last_value (text "1.0.0")
      (finditer_entries (text " '1.0.0': 'first', '1.0.0': 'second' ")).
Proof.
  apply (last_duplicate_wins duplicated_registry
           (text " '1.0.0': 'first', '1.0.0': 'second' ") (text "1.0.0")).
  vm_compute. reflexivity.
Defined.

Example duplicated_registry_entry :
  parse_versions duplicated_registry !! text "1.0.0" = Some (text "second").
Proof. vm_compute. reflexivity. Qed.

(** ** Where the versions block is found *)

Section VersionsBlock.

#[local] Arguments N.eqb : simpl never.

Lemma skip_spaces_split s :
  ∃ ws, s = ws ++ skip_spaces s ∧ Forall (λ c, is_space c = true) ws.
Proof.
  induction s as [|c s (ws & IH & Hws)]; simpl.
  - by exists [].
  - destruct (is_space c) eqn:Hc.
    + exists (c :: ws). split; [simpl; by rewrite <- IH|by constructor].
    + by exists [].
Qed.

Lemma skip_spaces_spaces ws c r :
  Forall (λ c, is_space c = true) ws → is_space c = false →
  skip_spaces (ws ++ c :: r) = c :: r.
Proof.
  intros Hws Hc. induction Hws as [|w ws Hw Hws IH]; simpl.
  - by rewrite Hc.
  - by rewrite Hw.
Qed.

Lemma match_versions_at_inv s block :
  match_versions_at s = Some block →
  ∃ ws post,
    s = text "versions:" ++ ws ++ [LBRACE] ++ block ++ [RBRACE] ++ post
    ∧ Forall (λ c, is_space c = true) ws ∧ RBRACE ∉ block.
Proof.
  unfold match_versions_at. intros H.
  destruct (strip_prefix (text "versions:") s) as [s1|] eqn:E1; [|done].
  cbn [mbind option_bind] in H.
  destruct (strip_prefix [LBRACE] (skip_spaces s1)) as [s2|] eqn:E2; [|done].
  cbn [mbind option_bind] in H.
  destruct (span_not RBRACE s2) as [g s3] eqn:E3.
  destruct (strip_prefix [RBRACE] s3) as [s4|] eqn:E4; [|done].
  cbn [mbind option_bind] in H. injection H as <-.
  destruct (skip_spaces_split s1) as (ws & Hs1 & Hws).
  exists ws, s4. split; [|split; [done|by eapply span_not_group]].
  apply strip_prefix_eq in E1, E2, E4. apply span_not_eq in E3.
  by rewrite E1, Hs1, E2, E3, E4.
Qed.

Lemma match_versions_at_complete ws block post :
  Forall (λ c, is_space c = true) ws → RBRACE ∉ block →
  match_versions_at
    (text "versions:" ++ ws ++ [LBRACE] ++ block ++ [RBRACE] ++ post)
  = Some block.
Proof.
  intros Hws Hb. unfold match_versions_at.
  rewrite strip_prefix_app. cbn [mbind option_bind].
  change ([LBRACE] ++ block ++ [RBRACE] ++ post)
    with (LBRACE :: (block ++ RBRACE :: post)).
  rewrite skip_spaces_spaces by done.
  change (LBRACE :: (block ++ RBRACE :: post))
    with ([LBRACE] ++ (block ++ RBRACE :: post)).
  rewrite strip_prefix_app. cbn [mbind option_bind].
  rewrite span_not_app by done.
  change (RBRACE :: post) with ([RBRACE] ++ post).
  by rewrite strip_prefix_app.
Qed.

Lemma re_search_versions_inv content block :
  re_search_versions content = Some block →
  ∃ pre s, content = pre ++ s ∧ match_versions_at s = Some block.
Proof.
  induction content as [|c content IH]; cbn [re_search_versions].
  - destruct (match_versions_at []) eqn:E; [|done].
    intros [= ->]. by exists [], [].
  - destruct (match_versions_at (c :: content)) as [g|] eqn:E.
    + intros [= ->]. by exists [], (c :: content).
    + intros (pre & s & -> & Hs)%IH. by exists (c :: pre), s.
Qed.

Lemma re_search_versions_app pre s :
  is_Some (match_versions_at s) → is_Some (re_search_versions (pre ++ s)).
Proof.
  intros Hs. induction pre as [|c pre IH].
  - destruct s; cbn [app re_search_versions];
      by destruct Hs as [g ->].
  - cbn [app re_search_versions].
    by destruct (match_versions_at (c :: pre ++ s)).
Qed.

Lemma span_not_found d s :
  d ∈ s → ∃ g r, span_not d s = (g, d :: r).
Proof.
  induction s as [|c s IH]; [by intros ?%elem_of_nil|].
  intros Hin. simpl. destruct (N.eqb_spec c d) as [->|Hne].
  - by eexists _, _.
  - apply elem_of_cons in Hin as [->|Hin]; [done|].
    destruct (IH Hin) as (g & r & ->). by eexists _, _.
Qed.

End VersionsBlock.

(** X15. The update takes a file to hold a versions block exactly when
    its text has, somewhere, [versions:], then white space only, an
    opening brace, text without a closing brace, and a closing brace; the
    block it reads is such a stretch between the braces. Any other file is
    treated as an empty registry. *)
Theorem versions_block_found_iff (content : pystr) :
  (∀ block, re_search_versions content = Some block →
     ∃ pre ws post,
       content = pre ++ text "versions:" ++ ws ++ [LBRACE] ++ block
                 ++ [RBRACE] ++ post
       ∧ Forall (λ c, is_space c = true) ws ∧ RBRACE ∉ block)
  ∧ ((∃ pre ws block post,
        content = pre ++ text "versions:" ++ ws ++ [LBRACE] ++ block
                  ++ [RBRACE] ++ post
        ∧ Forall (λ c, is_space c = true) ws ∧ RBRACE ∉ block)
     → is_Some (re_search_versions content))
  ∧ (re_search_versions content = None → parse_versions content = ∅).
Proof.
  split; [|split].
  - intros block (pre & s & -> & Hs)%re_search_versions_inv.
    apply match_versions_at_inv in Hs as (ws & post & -> & Hws & Hb).
    by exists pre, ws, post.
  - intros (pre & ws & block & post & -> & Hws & Hb).
    apply re_search_versions_app.
    by rewrite match_versions_at_complete.
  - intros Hnone. unfold parse_versions. by rewrite Hnone.
Qed.

(** X16. Whatever the version, the identifier and the old content are,
    the file the update writes holds a versions block that the search of
    the next run finds. *)
Theorem written_registry_has_a_block (content package_id version : pystr) :
  is_Some (re_search_versions (new_content content package_id version)).
Proof.
  unfold new_content. rewrite render_config_split.
  set (vs := versions_block _).
  destruct (span_not_found RBRACE (NL ++ text "    " ++ vs ++ TAIL))
    as (g & r & Hspan).
  { rewrite !elem_of_app. right. right. right.
    apply (bool_decide_unpack _). by vm_compute. }
  pose proof (span_not_group _ _ _ _ Hspan) as Hg.
  apply span_not_eq in Hspan.
  change (OPEN ++ vs ++ TAIL)
    with (text "versions:" ++ [32] ++ [LBRACE]
          ++ (NL ++ text "    " ++ vs ++ TAIL)).
  rewrite Hspan.
  change (g ++ RBRACE :: r) with (g ++ [RBRACE] ++ r).
  set (s := text "versions:" ++ _).
  replace (HEAD1 ++ version ++ HEAD2 ++ package_id ++ HEAD3 ++ s)
    with ((HEAD1 ++ version ++ HEAD2 ++ package_id ++ HEAD3) ++ s)
    by (by rewrite <- !app_assoc).
  apply re_search_versions_app. subst s.
  rewrite match_versions_at_complete; [done| |done].
  by repeat constructor.
Qed.

(** ** The transport encoding *)

Section Base64.

Lemma list_ind3 {A} (P : list A → Prop) :
  P [] → (∀ a, P [a]) → (∀ a b, P [a; b]) →
  (∀ a b c l, P l → P (a :: b :: c :: l)) →
  ∀ l, P l.
Proof.
  intros H0 H1 H2 H3 l.
  assert (P l ∧ (∀ a, P (a :: l)) ∧ (∀ a b, P (a :: b :: l))) as [? _];
    [|done].
  induction l as [|c l (IH0 & IH1 & IH2)]; [by auto|].
  split; [apply IH1|]. split; [intros a; apply IH2|].
  intros a b. by apply H3.
Qed.

Lemma byte_in_range a : is_byte a = true → In a byte_range.
Proof.
  unfold is_byte, byte_range. intros Ha%N.ltb_lt.
  apply in_map_iff. exists (N.to_nat a).
  split; [apply N2Nat.id|]. apply in_seq. lia.
Qed.

Lemma b64_pairs_ok :
  forallb (λ a, forallb (b64_pair_ok a) byte_range) byte_range = true.
Proof. vm_compute. reflexivity. Qed.

Lemma b64_pair_ok_bytes a b :
  is_byte a = true → is_byte b = true → b64_pair_ok a b = true.
Proof.
  intros Ha%byte_in_range Hb%byte_in_range.
  pose proof b64_pairs_ok as H.
  rewrite forallb_forall in H. specialize (H a Ha).
  rewrite forallb_forall in H. by apply H.
Qed.

End Base64.

(** X17. The transport encoding of a DAR of [n] bytes has
    [4 * ceil(n / 3)] characters, all of them letters, digits, [+], [/] or
    the padding [=]: the payload of the upload request is plain ASCII
    whatever the bytes of the artifact are. *)
Theorem b64encode_shape (bytes : list N) :
  Forall (λ b, is_byte b = true) bytes →
  length (b64encode bytes) = (4 * ((length bytes + 2) / 3))%nat
  ∧ Forall (λ c, is_b64_char c = true) (b64encode bytes).
Proof.
  induction bytes as [|a|a b|a b c l IH] using list_ind3.
  - intros _. by split.
  - intros [Ha _]%Forall_cons. split; [done|].
    pose proof (b64_pair_ok_bytes a a Ha Ha) as H.
    unfold b64_pair_ok in H. repeat apply andb_prop in H as [H ?].
    cbn [b64encode]. by repeat constructor.
  - intros [Ha [Hb _]%Forall_cons]%Forall_cons. split; [done|].
    pose proof (b64_pair_ok_bytes a b Ha Hb) as H.
    pose proof (b64_pair_ok_bytes b b Hb Hb) as H'.
    unfold b64_pair_ok in H, H'.
    repeat apply andb_prop in H as [H ?].
    repeat apply andb_prop in H' as [H' ?].
    cbn [b64encode]. by repeat constructor.
  - intros [Ha [Hb [Hc Hl]%Forall_cons]%Forall_cons]%Forall_cons.
    destruct (IH Hl) as [IHlen IHall]. split.
    + cbn [b64encode length]. rewrite IHlen.
      replace (S (S (S (length l))) + 2)%nat
        with ((length l + 2) + 1 * 3)%nat by lia.
      rewrite Nat.div_add by done. lia.
    + pose proof (b64_pair_ok_bytes a b Ha Hb) as H.
      pose proof (b64_pair_ok_bytes b c Hb Hc) as H'.
      pose proof (b64_pair_ok_bytes c c Hc Hc) as H''.
      unfold b64_pair_ok in H, H', H''.
      repeat apply andb_prop in H as [H ?].
      repeat apply andb_prop in H' as [H' ?].
      repeat apply andb_prop in H'' as [H'' ?].
      cbn [b64encode]. by repeat constructor.
Qed.

Lemma b64encode_shape_witness :
  length (b64encode [80; 75; 3; 4]) = (4 * ((length [80; 75; 3; 4] + 2) / 3))%nat
  ∧ Forall (λ c, is_b64_char c = true) (b64encode [80; 75; 3; 4]).
Proof.
  apply (b64encode_shape [80; 75; 3; 4]).
  repeat constructor.
Defined.

(** ** What an entry of the block looks like *)

Section Entries.

#[local] Arguments N.eqb : simpl never.

Lemma match_entry_at_shape s g1 g2 rest :
  match_entry_at s = Some (g1, g2, rest) →
  ∃ ws, s = [QUOTE] ++ g1 ++ [QUOTE; COLON] ++ ws ++ [QUOTE] ++ g2
            ++ [QUOTE] ++ rest
        ∧ Forall (λ c, is_space c = true) ws.
Proof.
  unfold match_entry_at. intros H.
  destruct (strip_prefix [QUOTE] s) as [s1|] eqn:E1; [|done].
  cbn [mbind option_bind] in H.
  destruct (span_not QUOTE s1) as [h1 s2] eqn:E2.
  destruct (decide (h1 = [])); [done|].
  destruct (strip_prefix [QUOTE; COLON] s2) as [s3|] eqn:E3; [|done].
  cbn [mbind option_bind] in H.
  destruct (strip_prefix [QUOTE] (skip_spaces s3)) as [s4|] eqn:E4; [|done].
  cbn [mbind option_bind] in H.
  destruct (span_not QUOTE s4) as [h2 s5] eqn:E5.
  destruct (decide (h2 = [])); [done|].
  destruct (strip_prefix [QUOTE] s5) as [s6|] eqn:E6; [|done].
  cbn [mbind option_bind] in H.
  injection H as <- <- <-.
  destruct (skip_spaces_split s3) as (ws & Hs3 & Hws). exists ws.
  apply strip_prefix_eq in E1, E3, E4, E6.
  apply span_not_eq in E2, E5.
  split; [|done]. by rewrite E1, E2, E3, Hs3, E4, E5, E6.
Qed.

Lemma finditer_fuel_shape fuel s k v :
  (k, v) ∈ finditer_fuel fuel s →
  ∃ pre ws post,
    s = pre ++ [QUOTE] ++ k ++ [QUOTE; COLON] ++ ws ++ [QUOTE] ++ v
        ++ [QUOTE] ++ post
    ∧ Forall (λ c, is_space c = true) ws.
Proof.
  revert s; induction fuel as [|fuel IH]; intros s; simpl.
  - by intros ?%elem_of_nil.
  - destruct (match_entry_at s) as [[[g1 g2] rest]|] eqn:E.
    + apply match_entry_at_shape in E as (ws & -> & Hws).
      intros [[= -> ->]|Hin]%elem_of_cons.
      * by exists [], ws, rest.
      * destruct (IH _ Hin) as (pre & ws' & post & -> & Hws').
        exists ([QUOTE] ++ g1 ++ [QUOTE; COLON] ++ ws ++ [QUOTE] ++ g2
                ++ [QUOTE] ++ pre), ws', post.
        split; [|done]. by rewrite <- !app_assoc.
    + destruct s as [|c s]; [by intros ?%elem_of_nil|].
      intros Hin. destruct (IH _ Hin) as (pre & ws & post & -> & Hws).
      by exists (c :: pre), ws, post.
Qed.

End Entries.

(** X18. Every entry the update reads from an existing file stands in the
    versions block as a quoted version, a colon, white space only, and a
    quoted identifier; both are non-empty and hold no quote. Anything else
    in the block is skipped without an error. *)
Theorem parsed_entries_are_quoted_pairs (content k v : pystr) :
  parse_versions content !! k = Some v →
  ∃ block pre ws post,
    re_search_versions content = Some block
    ∧ block = pre ++ [QUOTE] ++ k ++ [QUOTE; COLON] ++ ws ++ [QUOTE] ++ v
              ++ [QUOTE] ++ post
    ∧ Forall (λ c, is_space c = true) ws
    ∧ k ≠ [] ∧ v ≠ [] ∧ (QUOTE ∉ k) ∧ (QUOTE ∉ v).
Proof.
  intros Hkv.
  destruct (parse_versions_from_match _ _ _ Hkv) as (block & Hblock & Hin).
  pose proof (finditer_fuel_elem _ _ _ Hin) as (? & ? & ? & ? & _).
  destruct (finditer_fuel_shape _ _ _ _ Hin) as (pre & ws & post & Hs & Hws).
  by exists block, pre, ws, post.
Qed.

Lemma parsed_entries_are_quoted_pairs_witness :
  ∃ block pre ws post,
    re_search_versions duplicated_registry = Some block
    ∧ block = pre ++ [QUOTE] ++ text "1.0.0" ++ [QUOTE; COLON] ++ ws
              ++ [QUOTE] ++ text "second" ++ [QUOTE] ++ post
    ∧ Forall (λ c, is_space c = true) ws
    ∧ text "1.0.0" ≠ [] ∧ text "second" ≠ []
    ∧ (QUOTE ∉ text "1.0.0") ∧ (QUOTE ∉ text "second").
Proof.
  apply (parsed_entries_are_quoted_pairs duplicated_registry
           (text "1.0.0") (text "second")).
  vm_compute. reflexivity.
Defined.
